(** * The real-time meeting coordinator of dataquest

    A shallow embedding of the server side of the meeting platform:
    - [backend/models/Meeting.js]      (module [Meeting] below),
    - [backend/socket/socketHandlers.js] (the socket.io event handlers),
    - [backend/routes/meetings.js]     (the REST join and leave routes),
    followed by the properties of the coordinator that hold, and the concrete
    runs on which the handlers depart from them. *)

From Stdlib Require Import QArith.
From stdpp Require Import gmap strings list pretty.

Local Open Scope string_scope.
#[local] Set Warnings "-clear-no-such-hyp".

(** ** JavaScript values and strings *)

(** Event payloads and request bodies are untyped JSON. *)
#[warnings="-register-all"]
Inductive jsval :=
| JUndefined
| JNull
| JBool (b : bool)
| JNum (n : Z)
| JStr (s : string)
| JObj (fields : list (string * jsval)).

(** What a handler can raise. *)
Inductive exn :=
| TypeError
| PersistenceFailure
| Error (message : string).

Fixpoint assoc (k : string) (fields : list (string * jsval)) : option jsval :=
  match fields with
  | [] => None
  | (k', v) :: rest => if decide (k = k') then Some v else assoc k rest
  end.

(** [const { k } = data]: a [TypeError] when [data] is [undefined] or [null],
    [undefined] when the property is missing. *)
Definition destructure (data : jsval) (k : string) : exn + jsval :=
  match data with
  | JUndefined | JNull => inl TypeError
  | JObj fields => inr (default JUndefined (assoc k fields))
  | _ => inr JUndefined
  end.

(** The receiver of a string method call such as [meetingId.toUpperCase()] or
    [message.trim()]: anything but a string raises a [TypeError]. *)
Definition string_receiver (v : jsval) : exn + string :=
  match v with
  | JStr s => inr s
  | _ => inl TypeError
  end.

(** [`${v}`], the string conversion inside a template literal. A value that
    arrived as JSON holds no function: an object with a property of its own
    named [toString] has then no method to convert it ([valueOf], its own or
    the inherited one, gives no primitive either) and the conversion raises a
    [TypeError]. Every other value converts. *)
Definition interpolate (v : jsval) : exn + unit :=
  match v with
  | JObj fields =>
      match assoc "toString" fields with
      | Some _ => inl TypeError
      | None => inr tt
      end
  | _ => inr tt
  end.

(** Truthiness: [undefined], [null], [false], [0] and the empty string are
    falsy. *)
Definition truthy (v : jsval) : bool :=
  match v with
  | JUndefined | JNull => false
  | JBool b => b
  | JNum n => bool_decide (n ≠ 0%Z)
  | JStr s => bool_decide (s ≠ "")
  | JObj _ => true
  end.

(** [a === b]. Objects compare by reference, and two objects that reached the
    server in different payloads are never the same one. *)
Definition strict_equal (a b : jsval) : bool :=
  match a, b with
  | JUndefined, JUndefined => true
  | JNull, JNull => true
  | JBool x, JBool y => bool_decide (x = y)
  | JNum x, JNum y => bool_decide (x = y)
  | JStr x, JStr y => bool_decide (x = y)
  | _, _ => false
  end.

(** A schema field of type String whose default is [null]. *)
Definition nullable (o : option string) : jsval :=
  match o with
  | Some s => JStr s
  | None => JNull
  end.

Definition upper_ascii (a : Ascii.ascii) : Ascii.ascii :=
  let n := Ascii.nat_of_ascii a in
  if (97 <=? n)%nat && (n <=? 122)%nat then Ascii.ascii_of_nat (n - 32) else a.

(** [String.prototype.toUpperCase], on the ASCII range. *)
Fixpoint toUpperCase (s : string) : string :=
  match s with
  | EmptyString => EmptyString
  | String a s' => String (upper_ascii a) (toUpperCase s')
  end.

(** White space removed by [String.prototype.trim], on the ASCII range:
    tab, line feed, vertical tab, form feed, carriage return, space. *)
Definition is_white (a : Ascii.ascii) : bool :=
  let n := Ascii.nat_of_ascii a in
  ((9 <=? n)%nat && (n <=? 13)%nat) || (n =? 32)%nat.

Fixpoint trimStart (s : string) : string :=
  match s with
  | EmptyString => EmptyString
  | String a s' => if is_white a then trimStart s' else s
  end.

Definition trimEnd (s : string) : string :=
  String.rev (trimStart (String.rev s)).

Definition trim (s : string) : string := trimEnd (trimStart s).




(** ** backend/models/Meeting.js *)

Module Meeting.

(** [participantSchema]. The two status flags are Boolean paths: they hold a
    boolean, or [null] or [undefined] once such a value was assigned to them
    (see [castBoolean]). *)
Record Participant := {
  userId : string;
  name : string;
  joinedAt : Z;
  isMuted : jsval;
  isVideoOn : jsval;
  isHost : bool
}.

Record Settings := {
  allowChat : bool;
  allowScreenShare : bool;
  muteOnJoin : bool;
  waitingRoom : bool
}.

(** A stored Number. The schema's cast refuses [NaN] and lets every other
    number through, the infinities included; no validator asks for a whole or
    a positive one. *)
Inductive Number :=
| Finite (q : Q)
| Infinity
| NegInfinity.

(** [length >= n], for the length of a list. *)
Definition reached (len : nat) (n : Number) : bool :=
  match n with
  | Finite q => Qle_bool q (inject_Z (Z.of_nat len))
  | Infinity => false
  | NegInfinity => true
  end.

(** [meetingSchema]: the paths it declares. What Mongoose keeps beside them
    ([_id], [__v] and, with [timestamps: true], the [updatedAt] stamp that
    every modifying [save] renews) is not part of the model. *)
Record t := {
  meetingId : string;
  hostId : string;
  title : string;
  description : string;
  isActive : bool;
  createdAt : Z;
  expiresAt : Z;
  participants : list Participant;
  maxParticipants : Number;
  requirePassword : bool;
  meetingPassword : option string;
  settings : Settings
}.

Definition set_participants (m : t) (ps : list Participant) : t :=
  {| meetingId := meetingId m; hostId := hostId m; title := title m;
     description := description m; isActive := isActive m;
     createdAt := createdAt m; expiresAt := expiresAt m;
     participants := ps; maxParticipants := maxParticipants m;
     requirePassword := requirePassword m;
     meetingPassword := meetingPassword m; settings := settings m |}.

(** [this.participants.find(p => p.userId.toString() === userId.toString())] *)
Definition find (uid : string) (ps : list Participant) : option Participant :=
  List.find (λ p, bool_decide (userId p = uid)) ps.

(** A pushed plain object is cast to a subdocument, the schema defaults
    filling the fields it leaves out. *)
Definition subdocument (uid nm : string) (now : Z) (host : bool) : Participant :=
  {| userId := uid; name := nm; joinedAt := now;
     isMuted := JBool false; isVideoOn := JBool true; isHost := host |}.

(** What [addParticipant] hands back: the stored entry when the user has
    one, otherwise the object literal [{ userId, name, isHost }] it has just
    pushed, which is not the subdocument the push made of it. *)
Inductive Returned :=
| Found (existingParticipant : Participant)
| Pushed (userId name : string) (isHost : bool).

(** [addParticipant(userId, name, isHost = false)]: the entry that exists is
    returned; a full meeting raises; otherwise the literal is pushed and
    returned. *)
Definition addParticipant (m : t) (uid nm : string) (host : bool) (now : Z)
  : exn + (t * Returned) :=
  match find uid (participants m) with
  | Some existingParticipant => inr (m, Found existingParticipant)
  | None =>
      if reached (length (participants m)) (maxParticipants m)
      then inl (Error "Meeting is full")
      else
        inr (set_participants m
               (participants m ++ [subdocument uid nm now host]),
             Pushed uid nm host)
  end.

(** [removeParticipant(userId)] *)
Definition removeParticipant (m : t) (uid : string) : t :=
  set_participants m
    (List.filter (λ p, bool_decide (userId p ≠ uid)) (participants m)).

(** The cast of a value assigned to a Boolean path: [true], ['true'], [1],
    ['1'] and ['yes'] give [true]; [false], ['false'], [0], ['0'] and ['no']
    give [false]; [null] and [undefined] are kept; nothing else casts. *)
Definition castBoolean (v : jsval) : option jsval :=
  match v with
  | JBool b => Some (JBool b)
  | JNum n =>
      if bool_decide (n = 1%Z) then Some (JBool true)
      else if bool_decide (n = 0%Z) then Some (JBool false)
      else None
  | JStr s =>
      if bool_decide (s = "true") || bool_decide (s = "1") ||
         bool_decide (s = "yes") then Some (JBool true)
      else if bool_decide (s = "false") || bool_decide (s = "0") ||
              bool_decide (s = "no") then Some (JBool false)
      else None
  | JUndefined => Some JUndefined
  | JNull => Some JNull
  | JObj _ => None
  end.

(** [participant.flag = v] through the setter of the path: the cast value is
    stored, and a value that does not cast leaves the flag as it was. *)
Definition set_flag (old v : jsval) : jsval := default old (castBoolean v).

(** [Object.assign(participant, updates)] with
    [updates = { isMuted, isVideoOn }]: both keys are always present, so a
    flag the client left out is overwritten with [undefined]. *)
Definition assign (p : Participant) (muted videoOn : jsval) : Participant :=
  {| userId := userId p; name := name p; joinedAt := joinedAt p;
     isMuted := set_flag (isMuted p) muted;
     isVideoOn := set_flag (isVideoOn p) videoOn; isHost := isHost p |}.

(** An assignment that did not cast is recorded on the document as a
    validation error, and the [save()] that follows rejects. *)
Definition assignable (muted videoOn : jsval) : bool :=
  bool_decide (is_Some (castBoolean muted)) &&
  bool_decide (is_Some (castBoolean videoOn)).

(** A flag that was assigned [undefined] is unset in the collection by the
    [save()] that follows, and the schema default stands in for it whenever
    the document is loaded again. *)
Definition loaded_flag (by_default : bool) (v : jsval) : jsval :=
  match v with
  | JUndefined => JBool by_default
  | _ => v
  end.

Definition loaded_entry (p : Participant) : Participant :=
  {| userId := userId p; name := name p; joinedAt := joinedAt p;
     isMuted := loaded_flag false (isMuted p);
     isVideoOn := loaded_flag true (isVideoOn p); isHost := isHost p |}.

Fixpoint assign_first (uid : string) (muted videoOn : jsval)
    (ps : list Participant) : list Participant :=
  match ps with
  | [] => []
  | p :: rest =>
      if bool_decide (userId p = uid)
      then assign p muted videoOn :: rest
      else p :: assign_first uid muted videoOn rest
  end.

(** [updateParticipant(userId, updates)]. [userId.toString()] is evaluated
    inside the [find] callback: a [null] user identifier raises as soon as
    there is one participant to compare with. *)
Definition updateParticipant (m : t) (uid : option string)
    (muted videoOn : jsval) : exn + (t * option Participant) :=
  match uid with
  | None =>
      match participants m with
      | [] => inr (m, None)
      | _ :: _ => inl TypeError
      end
  | Some u =>
      match find u (participants m) with
      | Some p =>
          inr (set_participants m (assign_first u muted videoOn (participants m)),
               Some (assign p muted videoOn))
      | None => inr (m, None)
      end
  end.

(** The document as the collection gives it back once it was saved. *)
Definition loaded (m : t) : t :=
  set_participants m (loaded_entry <$> participants m).

(** [isUserHost(userId)]: [this.hostId.toString() === userId.toString()]. *)
Definition isUserHost (m : t) (uid : option string) : exn + bool :=
  match uid with
  | None => inl TypeError
  | Some u => inr (bool_decide (hostId m = u))
  end.

End Meeting.

(** ** The server state and what it sends *)

(** The fields the authentication middleware and the handlers keep on the
    socket object; the socket's [id] is its key in [sockets]. A [userId] of
    [None] is [null] or [undefined], which no handler tells apart;
    [currentMeeting] is [undefined] until the first join and [null] after a
    leave. *)
Record Socket := {
  userId : option string;
  userName : string;
  isAuthenticated : bool;
  currentMeeting : jsval
}.

(** - [db]: the meetings collection, keyed by its unique [meetingId];
    - [sockets]: the live connections;
    - [rooms]: the socket.io adapter, room name to connection identifiers. *)
Record state := {
  db : gmap string Meeting.t;
  sockets : gmap string Socket;
  rooms : gmap string (gset string)
}.

Definition room (st : state) (r : string) : gset string :=
  default ∅ (rooms st !! r).

(** A room given by an arbitrary value: only strings name rooms here. *)
Definition room_of (st : state) (v : jsval) : gset string :=
  match v with
  | JStr r => room st r
  | _ => ∅
  end.

(** One row of [participants] in the [meeting-joined] reply. *)
Record ParticipantView := {
  view_userId : string;
  view_name : string;
  view_isMuted : jsval;
  view_isVideoOn : jsval;
  view_isHost : bool
}.

Record ChatMessage := {
  id : string;
  msg_userId : option string;
  msg_userName : string;
  message : string;
  type : jsval;
  timestamp : Z
}.

(** The outbound events, each with the fields of its object literal. *)
Inductive event :=
| EvError (message : string)
| UserConnected (userId userName socketId : string) (isGuest : bool)
| MeetingJoined (meetingId : string) (participants : list ParticipantView)
    (isHost : bool)
| WebrtcOffer (fromUserId fromUserName : string) (offer : jsval)
| WebrtcAnswer (fromUserId : string) (answer : jsval)
| WebrtcIceCandidate (fromUserId : string) (candidate : jsval)
| NewMessage (chatMessage : ChatMessage)
| ParticipantStatusUpdated (userId : option string) (userName : string)
    (isMuted isVideoOn : jsval)
| UserStartedScreenShare (userId : option string) (userName : string)
| UserStoppedScreenShare (userId : option string) (userName : string)
| MuteRequest (targetUserId : jsval) (fromHost : bool)
| UserDisconnected (userId : option string) (userName : string)
| ParticipantJoined (participant : Meeting.Returned) (meetingId : string)
    (participants : list Meeting.Participant)
| ParticipantLeft (userId name meetingId : string)
    (participants : list Meeting.Participant).

(** One [emit]: the connections it reaches, fixed when it is issued. *)
Record emission := {
  recipients : gset string;
  payload : event
}.

(** What the outside world answers during one handler run. *)
Record env := {
  findOne_rejects : bool;
  save_rejects : bool;
  Date_now : Z;
  new_Date : Z
}.

(** ** Handlers as state-and-exception computations *)

Inductive res (A : Type) :=
| Ok (a : A) (st : state) (out : list emission)
| Throw (e : exn) (st : state) (out : list emission).
Arguments Ok {A} a st out.
Arguments Throw {A} e st out.

Definition M (A : Type) : Type := state → list emission → res A.

Definition ret {A} (a : A) : M A := λ st out, Ok a st out.

Definition throw {A} (e : exn) : M A := λ st out, Throw e st out.

Definition bind {A B} (m : M A) (k : A → M B) : M B :=
  λ st out,
    match m st out with
    | Ok a st' out' => k a st' out'
    | Throw e st' out' => Throw e st' out'
    end.

Notation "'let!' x ':=' m 'in' k" := (bind m (λ x, k))
  (at level 10, x name, m at level 100, k at level 200).
Notation "m '>>' k" := (bind m (λ _, k))
  (at level 200, right associativity).

(** [try { body } catch (error) { handler }]: what [body] did before it raised
    stays done. *)
Definition try_catch {A} (body : M A) (handler : exn → M A) : M A :=
  λ st out,
    match body st out with
    | Ok a st' out' => Ok a st' out'
    | Throw e st' out' => handler e st' out'
    end.

Definition lift {A} (x : exn + A) : M A :=
  match x with
  | inl e => throw e
  | inr a => ret a
  end.

Definition run {A} (m : M A) (st : state) : res A := m st [].

(** [socket.emit(ev)] *)
Definition socket_emit (sid : string) (ev : event) : M unit :=
  λ st out, Ok tt st (out ++ [{| recipients := {[sid]}; payload := ev |}]).

(** [socket.to(r).emit(ev)]: the room without the sender. *)
Definition socket_to (sid : string) (r : jsval) (ev : event) : M unit :=
  λ st out,
    Ok tt st (out ++ [{| recipients := room_of st r ∖ {[sid]}; payload := ev |}]).

(** [io.to(r).emit(ev)]: the whole room. *)
Definition io_to (r : jsval) (ev : event) : M unit :=
  λ st out, Ok tt st (out ++ [{| recipients := room_of st r; payload := ev |}]).

(** [socket.join(r)] *)
Definition socket_join (sid r : string) : M unit :=
  λ st out,
    Ok tt {| db := db st; sockets := sockets st;
             rooms := <[r := {[sid]} ∪ room st r]> (rooms st) |} out.

(** [socket.leave(r)]: the adapter drops a room that becomes empty. *)
Definition rooms_leave (sid r : string) (rs : gmap string (gset string))
  : gmap string (gset string) :=
  match rs !! r with
  | None => rs
  | Some members =>
      let members' := members ∖ {[sid]} in
      if decide (members' = ∅) then delete r rs else <[r := members']> rs
  end.

Definition socket_leave (sid : string) (r : jsval) : M unit :=
  λ st out,
    match r with
    | JStr r =>
        Ok tt {| db := db st; sockets := sockets st;
                 rooms := rooms_leave sid r (rooms st) |} out
    | _ => Ok tt st out
    end.

(** [socket.currentMeeting = v] *)
Definition set_currentMeeting (sid : string) (sock : Socket) (v : jsval)
  : M unit :=
  λ st out,
    Ok tt {| db := db st;
             sockets := <[sid := {| userId := userId sock;
                                    userName := userName sock;
                                    isAuthenticated := isAuthenticated sock;
                                    currentMeeting := v |}]> (sockets st);
             rooms := rooms st |} out.

(** [await Meeting.findOne({ meetingId: mid, isActive: true })] *)
Definition findOne (e : env) (mid : string) : M (option Meeting.t) :=
  λ st out,
    if findOne_rejects e then Throw PersistenceFailure st out
    else
      match db st !! mid with
      | Some m => Ok (if Meeting.isActive m then Some m else None) st out
      | None => Ok None st out
      end.

(** [await meeting.save()] *)
Definition save (e : env) (m : Meeting.t) : M unit :=
  λ st out,
    if save_rejects e then Throw PersistenceFailure st out
    else
      Ok tt {| db := <[Meeting.meetingId m := m]> (db st);
               sockets := sockets st; rooms := rooms st |} out.

(** [socket.userId || `guest-${socket.id}`] *)
Definition userId_or_guest (sid : string) (sock : Socket) : string :=
  match userId sock with
  | Some u => if bool_decide (u ≠ "") then u else "guest-" +:+ sid
  | None => "guest-" +:+ sid
  end.

Definition view (p : Meeting.Participant) : ParticipantView :=
  {| view_userId := Meeting.userId p; view_name := Meeting.name p;
     view_isMuted := Meeting.isMuted p; view_isVideoOn := Meeting.isVideoOn p;
     view_isHost := Meeting.isHost p |}.

(** ** backend/socket/socketHandlers.js *)

(** What [jwt.verify] and [User.findById] made of the handshake token. *)
Inductive credential :=
| NoToken
| BadToken
| UnknownUser
| KnownUser (uid name : string).

(** The [io.use] middleware followed by the connection itself: socket.io puts
    every new socket in the room named by its own identifier. *)
Definition authenticate (c : credential) : Socket :=
  match c with
  | KnownUser uid name =>
      {| userId := Some uid; userName := name; isAuthenticated := true;
         currentMeeting := JUndefined |}
  | NoToken | BadToken | UnknownUser =>
      {| userId := None; userName := "Guest"; isAuthenticated := false;
         currentMeeting := JUndefined |}
  end.

Definition connection (sid : string) (c : credential) (st : state) : state :=
  {| db := db st;
     sockets := <[sid := authenticate c]> (sockets st);
     rooms := <[sid := {[sid]} ∪ room st sid]> (rooms st) |}.

(** [socket.on('join-meeting', async (data) => ...)]. The pushed object also
    has a [socketId], which is not a path of [participantSchema] and is not
    stored. The middleware gives every authenticated socket a user
    identifier; an entry pushed without one would fail the [required]
    validation of [userId] when saved. *)
Definition join_meeting (e : env) (sid : string) (sock : Socket) (data : jsval)
  : M unit :=
  try_catch
    (let! meetingId := lift (destructure data "meetingId") in
     let! mid := lift (string_receiver meetingId) in
     let! found := findOne e (toUpperCase mid) in
     match found with
     | None => socket_emit sid (EvError "Meeting not found")
     | Some meeting =>
         let! meeting :=
           (if isAuthenticated sock then
              let isParticipant :=
                existsb (λ p, bool_decide (Some (Meeting.userId p) = userId sock))
                        (Meeting.participants meeting) in
              if isParticipant then ret meeting
              else
                match userId sock with
                | Some uid =>
                    let meeting' :=
                      Meeting.set_participants meeting
                        (Meeting.participants meeting ++
                         [Meeting.subdocument uid (userName sock) (new_Date e) false]) in
                    save e meeting' >> ret meeting'
                | None => throw (Error "Meeting validation failed")
                end
            else ret meeting) in
         socket_join sid mid >>
         set_currentMeeting sid sock (JStr mid) >>
         socket_to sid (JStr mid)
           (UserConnected (userId_or_guest sid sock) (userName sock) sid
                          (negb (isAuthenticated sock))) >>
         let participants := List.map view (Meeting.participants meeting) in
         let! isHost := lift (Meeting.isUserHost meeting (userId sock)) in
         socket_emit sid (MeetingJoined mid participants isHost)
     end)
    (λ _, socket_emit sid (EvError "Failed to join meeting")).

(** [socket.on('webrtc-offer', (data) => ...)]: no [try], no membership test.
    The [console.log] before the [emit] converts [targetUserId] to a string. *)
Definition webrtc_offer (sid : string) (sock : Socket) (data : jsval) : M unit :=
  let! targetUserId := lift (destructure data "targetUserId") in
  let! offer := lift (destructure data "offer") in
  let! meetingId := lift (destructure data "meetingId") in
  lift (interpolate targetUserId) >>
  socket_to sid meetingId
    (WebrtcOffer (userId_or_guest sid sock) (userName sock) offer).

(** [socket.on('webrtc-answer', (data) => ...)] *)
Definition webrtc_answer (sid : string) (sock : Socket) (data : jsval) : M unit :=
  let! targetUserId := lift (destructure data "targetUserId") in
  let! answer := lift (destructure data "answer") in
  let! meetingId := lift (destructure data "meetingId") in
  lift (interpolate targetUserId) >>
  socket_to sid meetingId (WebrtcAnswer (userId_or_guest sid sock) answer).

(** [socket.on('webrtc-ice-candidate', (data) => ...)] *)
Definition webrtc_ice_candidate (sid : string) (sock : Socket) (data : jsval)
  : M unit :=
  let! targetUserId := lift (destructure data "targetUserId") in
  let! candidate := lift (destructure data "candidate") in
  let! meetingId := lift (destructure data "meetingId") in
  lift (interpolate targetUserId) >>
  socket_to sid meetingId
    (WebrtcIceCandidate (userId_or_guest sid sock) candidate).

(** [!socket.currentMeeting || socket.currentMeeting !== meetingId] *)
Definition not_in_meeting (sock : Socket) (meetingId : jsval) : bool :=
  negb (truthy (currentMeeting sock)) ||
  negb (strict_equal (currentMeeting sock) meetingId).

(** [socket.on('send-message', async (data) => ...)] *)
Definition send_message (e : env) (sid : string) (sock : Socket) (data : jsval)
  : M unit :=
  try_catch
    (let! meetingId := lift (destructure data "meetingId") in
     let! msg := lift (destructure data "message") in
     let! ty := lift (destructure data "type") in
     let type := match ty with JUndefined => JStr "text" | _ => ty end in
     if not_in_meeting sock meetingId
     then socket_emit sid (EvError "Not in this meeting")
     else
       let! text := lift (string_receiver msg) in
       let chatMessage :=
         {| id := pretty (Date_now e); msg_userId := userId sock;
            msg_userName := userName sock; message := trim text;
            type := type; timestamp := new_Date e |} in
       io_to meetingId (NewMessage chatMessage))
    (λ _, socket_emit sid (EvError "Failed to send message")).

(** [socket.on('update-participant-status', async (data) => ...)]. A flag
    that does not cast to a boolean makes [meeting.save()] reject with a
    validation error, whatever the database would have answered. The event
    carries the flags of the entry as assigned; the collection, which holds
    the documents as [findOne] returns them, gets the entry as it is loaded
    the next time. *)
Definition update_participant_status (e : env) (sid : string) (sock : Socket)
    (data : jsval) : M unit :=
  try_catch
    (let! meetingId := lift (destructure data "meetingId") in
     let! isMuted := lift (destructure data "isMuted") in
     let! isVideoOn := lift (destructure data "isVideoOn") in
     if not_in_meeting sock meetingId
     then socket_emit sid (EvError "Not in this meeting")
     else
       let! mid := lift (string_receiver meetingId) in
       let! found := findOne e (toUpperCase mid) in
       match found with
       | None => ret tt
       | Some meeting =>
           let! updated :=
             lift (Meeting.updateParticipant meeting (userId sock)
                     isMuted isVideoOn) in
           match updated with
           | (meeting', Some participant) =>
               (if Meeting.assignable isMuted isVideoOn
                then save e (Meeting.loaded meeting')
                else throw (Error "Meeting validation failed")) >>
               io_to meetingId
                 (ParticipantStatusUpdated (userId sock) (userName sock)
                    (Meeting.isMuted participant) (Meeting.isVideoOn participant))
           | (_, None) => ret tt
           end
       end)
    (λ _, socket_emit sid (EvError "Failed to update status")).

(** [socket.on('start-screen-share', (data) => ...)] *)
Definition start_screen_share (sid : string) (sock : Socket) (data : jsval)
  : M unit :=
  let! meetingId := lift (destructure data "meetingId") in
  if strict_equal (currentMeeting sock) meetingId
  then socket_to sid meetingId
         (UserStartedScreenShare (userId sock) (userName sock))
  else ret tt.

(** [socket.on('stop-screen-share', (data) => ...)] *)
Definition stop_screen_share (sid : string) (sock : Socket) (data : jsval)
  : M unit :=
  let! meetingId := lift (destructure data "meetingId") in
  if strict_equal (currentMeeting sock) meetingId
  then socket_to sid meetingId
         (UserStoppedScreenShare (userId sock) (userName sock))
  else ret tt.

(** [socket.on('mute-participant', async (data) => ...)] *)
Definition mute_participant (e : env) (sid : string) (sock : Socket)
    (data : jsval) : M unit :=
  try_catch
    (let! meetingId := lift (destructure data "meetingId") in
     let! targetUserId := lift (destructure data "targetUserId") in
     let! mid := lift (string_receiver meetingId) in
     let! found := findOne e (toUpperCase mid) in
     let! refused :=
       match found with
       | None => ret true
       | Some meeting =>
           let! host := lift (Meeting.isUserHost meeting (userId sock)) in
           ret (negb host)
       end in
     if refused : bool
     then socket_emit sid (EvError "Not authorized to mute participants")
     else io_to meetingId (MuteRequest targetUserId true))
    (λ _, socket_emit sid (EvError "Failed to mute participant")).

(** [socket.on('leave-meeting', async () => ...)] *)
Definition leave_meeting (sid : string) (sock : Socket) : M unit :=
  if truthy (currentMeeting sock) then
    let meetingId := currentMeeting sock in
    socket_leave sid meetingId >>
    socket_to sid meetingId (UserDisconnected (userId sock) (userName sock)) >>
    set_currentMeeting sid sock JNull
  else ret tt.

(** The transport closing: socket.io takes the socket out of every room, then
    runs [socket.on('disconnect', async () => ...)]; the socket object is
    gone afterwards. *)
Definition leave_all (sid : string) : M unit :=
  λ st out,
    Ok tt {| db := db st; sockets := sockets st;
             rooms := filter (λ kv, kv.2 ≠ ∅) ((λ s, s ∖ {[sid]}) <$> rooms st) |}
       out.

Definition forget_socket (sid : string) : M unit :=
  λ st out,
    Ok tt {| db := db st; sockets := delete sid (sockets st);
             rooms := rooms st |} out.

Definition disconnect (sid : string) (sock : Socket) : M unit :=
  leave_all sid >>
  (if truthy (currentMeeting sock) then
     let meetingId := currentMeeting sock in
     socket_to sid meetingId (UserDisconnected (userId sock) (userName sock))
   else ret tt) >>
  forget_socket sid.

(** ** backend/routes/meetings.js *)

(** [res.status(status).json({ success, message, data: { participant } })] *)
Record response := {
  status : nat;
  success : bool;
  res_message : string;
  res_participant : option Meeting.Returned
}.

(** [router.post('/join/:meetingId', authenticateToken, ...)]: [uid] and [nm]
    are [req.user._id] and [req.user.name], [meetingId] is the route
    parameter and [body] is [req.body]. *)
Definition post_join (e : env) (uid nm : string) (meetingId : string)
    (body : jsval) : M response :=
  try_catch
    (let! password := lift (destructure body "password") in
     let! found := findOne e (toUpperCase meetingId) in
     match found with
     | None =>
         ret {| status := 404; success := false;
                res_message := "Meeting not found or has ended";
                res_participant := None |}
     | Some meeting =>
         if Meeting.requirePassword meeting &&
            negb (strict_equal (nullable (Meeting.meetingPassword meeting))
                                password)
         then ret {| status := 401; success := false;
                     res_message := "Invalid meeting password";
                     res_participant := None |}
         else if Meeting.reached (length (Meeting.participants meeting))
                                 (Meeting.maxParticipants meeting)
         then ret {| status := 400; success := false;
                     res_message := "Meeting is full";
                     res_participant := None |}
         else
           match Meeting.find uid (Meeting.participants meeting) with
           | Some existingParticipant =>
               ret {| status := 200; success := true;
                      res_message := "Already in meeting";
                      res_participant :=
                        Some (Meeting.Found existingParticipant) |}
           | None =>
               let! added :=
                 lift (Meeting.addParticipant meeting uid nm false (new_Date e)) in
               let '(meeting', participant) := added in
               save e meeting' >>
               io_to (JStr meetingId)
                 (ParticipantJoined participant (Meeting.meetingId meeting')
                    (Meeting.participants meeting')) >>
               ret {| status := 200; success := true;
                      res_message := "Successfully joined meeting";
                      res_participant := Some participant |}
           end
     end)
    (λ _, ret {| status := 500; success := false;
                 res_message := "Internal server error";
                 res_participant := None |}).

(** [router.post('/:meetingId/leave', authenticateToken, ...)] *)
Definition post_leave (e : env) (uid nm : string) (meetingId : string)
  : M response :=
  try_catch
    (let! found := findOne e (toUpperCase meetingId) in
     match found with
     | None =>
         ret {| status := 404; success := false;
                res_message := "Meeting not found or has ended";
                res_participant := None |}
     | Some meeting =>
         let meeting' := Meeting.removeParticipant meeting uid in
         save e meeting' >>
         io_to (JStr meetingId)
           (ParticipantLeft uid nm (Meeting.meetingId meeting')
              (Meeting.participants meeting')) >>
         ret {| status := 200; success := true;
                res_message := "Successfully left meeting";
                res_participant := None |}
     end)
    (λ _, ret {| status := 500; success := false;
                 res_message := "Internal server error";
                 res_participant := None |}).

(** ** Runs of the server *)

(** What the schema validators guarantee of a stored meeting: it is filed
    under its own identifier, which has 6 to 10 characters. *)
Definition db_valid (d : gmap string Meeting.t) : Prop :=
  ∀ k m, d !! k = Some m →
    Meeting.meetingId m = k ∧ (6 ≤ String.length k ≤ 10)%nat.

(** The inbound socket events. *)
Inductive inbound :=
| JoinMeeting (data : jsval)
| WebrtcOfferIn (data : jsval)
| WebrtcAnswerIn (data : jsval)
| WebrtcIceCandidateIn (data : jsval)
| SendMessage (data : jsval)
| UpdateParticipantStatus (data : jsval)
| StartScreenShare (data : jsval)
| StopScreenShare (data : jsval)
| MuteParticipant (data : jsval)
| LeaveMeeting
| Disconnect.

Definition handler (e : env) (sid : string) (sock : Socket) (i : inbound)
  : M unit :=
  match i with
  | JoinMeeting data => join_meeting e sid sock data
  | WebrtcOfferIn data => webrtc_offer sid sock data
  | WebrtcAnswerIn data => webrtc_answer sid sock data
  | WebrtcIceCandidateIn data => webrtc_ice_candidate sid sock data
  | SendMessage data => send_message e sid sock data
  | UpdateParticipantStatus data => update_participant_status e sid sock data
  | StartScreenShare data => start_screen_share sid sock data
  | StopScreenShare data => stop_screen_share sid sock data
  | MuteParticipant data => mute_participant e sid sock data
  | LeaveMeeting => leave_meeting sid sock
  | Disconnect => disconnect sid sock
  end.

(** The state a run leaves behind, whether it returned or raised. *)
Definition final {A} (r : res A) : state :=
  match r with
  | Ok _ st _ => st
  | Throw _ st _ => st
  end.

Definition emitted {A} (r : res A) : list emission :=
  match r with
  | Ok _ _ out => out
  | Throw _ _ out => out
  end.

Definition returned {A} (r : res A) : bool :=
  match r with
  | Ok _ _ _ => true
  | Throw _ _ _ => false
  end.

(** The states the server can be in: it starts with a valid collection and
    no connection; then clients connect, send events and disconnect, and
    authenticated users call the two REST routes. *)
Inductive reachable : state → Prop :=
| reach_init d :
    db_valid d →
    reachable {| db := d; sockets := ∅; rooms := ∅ |}
| reach_connection st sid c :
    reachable st →
    sockets st !! sid = None →
    reachable (connection sid c st)
| reach_event st e sid sock i :
    reachable st →
    sockets st !! sid = Some sock →
    reachable (final (run (handler e sid sock i) st))
| reach_post_join st e uid nm meetingId body :
    reachable st →
    reachable (final (run (post_join e uid nm meetingId body) st))
| reach_post_leave st e uid nm meetingId :
    reachable st →
    reachable (final (run (post_leave e uid nm meetingId) st)).

(** [ev] reaches connection [r] in the run [out]. *)
Definition delivered (r : string) (ev : event) (out : list emission) : Prop :=
  ∃ em, em ∈ out ∧ r ∈ recipients em ∧ payload em = ev.



(** ** The membership invariant *)

(** [currentMeeting] is [undefined], [null] or a truthy string, and whoever
    has a current meeting is in the socket.io room of that name. *)
Definition in_current_meeting (st : state) (sid : string) (sock : Socket)
  : Prop :=
  match currentMeeting sock with
  | JUndefined | JNull => True
  | JStr m => m ≠ "" ∧ sid ∈ room st m
  | _ => False
  end.

Definition inv (st : state) : Prop :=
  db_valid (db st) ∧
  ∀ sid sock, sockets st !! sid = Some sock → in_current_meeting st sid sock.

(** ** A meeting used in the examples

    Meeting ABC12345, hosted by Ann (user u1), who is its first participant
    since the meeting was created. *)

Definition e0 : env :=
  {| findOne_rejects := false; save_rejects := false;
     Date_now := 1700000000000; new_Date := 1700000000000 |}.

Definition ann : Meeting.Participant := Meeting.subdocument "u1" "Ann" 0 true.

Definition abc (capacity : Z) (password : option string) : Meeting.t :=
  {| Meeting.meetingId := "ABC12345"; Meeting.hostId := "u1";
     Meeting.title := "Weekly"; Meeting.description := "";
     Meeting.isActive := true; Meeting.createdAt := 0;
     Meeting.expiresAt := 86400000; Meeting.participants := [ann];
     Meeting.maxParticipants := Meeting.Finite (inject_Z capacity);
     Meeting.requirePassword := bool_decide (password ≠ None);
     Meeting.meetingPassword := password;
     Meeting.settings :=
       {| Meeting.allowChat := true; Meeting.allowScreenShare := true;
          Meeting.muteOnJoin := false; Meeting.waitingRoom := false |} |}.

Definition start (capacity : Z) (password : option string) : state :=
  {| db := {[ "ABC12345" := abc capacity password ]}; sockets := ∅; rooms := ∅ |}.

Definition Ann : credential := KnownUser "u1" "Ann".
Definition Bob : credential := KnownUser "u2" "Bob".
Definition Cy : credential := KnownUser "u3" "Cy".

Definition join_ABC : jsval := JObj [("meetingId", JStr "ABC12345")].

(** A client connects as [sid] and sends [join-meeting]. *)
Definition enter (sid : string) (c : credential) (data : jsval) (st : state)
  : state :=
  final (run (join_meeting e0 sid (authenticate c) data) (connection sid c st)).

(** Ann and Bob are in a meeting for two; a third client has connected. *)
Definition full_house : state :=
  connection "s3" Cy (enter "s2" Bob join_ABC (enter "s1" Ann join_ABC (start 2 None))).

(** Ann is in her password-protected meeting. *)
Definition locked : state :=
  enter "s1" Ann join_ABC (start 50 (Some "secret")).

(** Ann and a guest are in the meeting. *)
Definition with_guest : state :=
  enter "s2" NoToken join_ABC (enter "s1" Ann join_ABC (start 50 None)).

(** Ann and Bob are in the meeting. *)
Definition with_bob : state :=
  enter "s2" Bob join_ABC (enter "s1" Ann join_ABC (start 50 None)).


(** The sockets of Ann, Bob and the guest once they have joined. *)
Definition ann_socket : Socket :=
  {| userId := Some "u1"; userName := "Ann"; isAuthenticated := true;
     currentMeeting := JStr "ABC12345" |}.

Definition bob_socket : Socket :=
  {| userId := Some "u2"; userName := "Bob"; isAuthenticated := true;
     currentMeeting := JStr "ABC12345" |}.

Definition guest_socket : Socket :=
  {| userId := None; userName := "Guest"; isAuthenticated := false;
     currentMeeting := JStr "ABC12345" |}.

Definition hello : jsval :=
  JObj [("meetingId", JStr "ABC12345"); ("message", JStr "  hello ")].




Definition offer_to_ann : jsval :=
  JObj [("meetingId", JStr "ABC12345"); ("targetUserId", JStr "u1");
        ("offer", JObj [("type", JStr "offer"); ("sdp", JStr "v=0")])].

Definition mute_ann : jsval :=
  JObj [("meetingId", JStr "ABC12345"); ("targetUserId", JStr "u1")].

Definition mute_bob : jsval :=
  JObj [("meetingId", JStr "ABC12345"); ("targetUserId", JStr "u2")].

Definition muted_only : jsval :=
  JObj [("meetingId", JStr "ABC12345"); ("isMuted", JBool true)].

Definition bob : Meeting.Participant :=
  Meeting.subdocument "u2" "Bob" 1700000000000 false.

Definition cy : Meeting.Participant :=
  Meeting.subdocument "u3" "Cy" 1700000000000 false.







Definition join_wrong_password : jsval :=
  JObj [("meetingId", JStr "ABC12345"); ("password", JStr "wrong")].

Definition wrong_password : jsval := JObj [("password", JStr "wrong")].

(** No user identifier occurs twice among the persisted participants. *)
Definition unique_users (m : Meeting.t) : Prop :=
  NoDup (Meeting.userId <$> Meeting.participants m).

Definition db_unique (d : gmap string Meeting.t) : Prop :=
  ∀ k m, d !! k = Some m → unique_users m.

(** ** The rest of the model and of the routes *)

(** [generateMeetingId]. [characters.charAt(i)] is the empty string out of
    range. *)
Definition characters : string := "ABCDEFGHIJKLMNOPQRSTUVWXYZ0123456789".

Definition charAt (s : string) (i : nat) : string :=
  match String.get i s with
  | Some c => String c ""
  | None => ""
  end.

(** The inner [for] loop: [n] characters appended, one draw each. A draw is
    the value of [Math.floor(Math.random() * characters.length)]. [None] when
    the draws run out. *)
Fixpoint candidate (n : nat) (draws : list nat) : option (string * list nat) :=
  match n with
  | O => Some ("", draws)
  | S n' =>
      match draws with
      | [] => None
      | i :: rest =>
          match candidate n' rest with
          | Some (tail, rest') => Some (charAt characters i +:+ tail, rest')
          | None => None
          end
      end
  end.

(** The [while (!isUnique)] loop, at most [attempts] times round. The lookup
    [this.findOne({ meetingId })] has no [isActive] filter. *)
Fixpoint generate_loop (e : env) (d : gmap string Meeting.t) (attempts : nat)
    (draws : list nat) : option (exn + string) :=
  match attempts with
  | O => None
  | S attempts' =>
      match candidate 8 draws with
      | None => None
      | Some (meetingId, rest) =>
          if findOne_rejects e then Some (inl PersistenceFailure)
          else
            match d !! meetingId with
            | None => Some (inr meetingId)
            | Some _existingMeeting => generate_loop e d attempts' rest
            end
      end
  end.

(** [Meeting.generateMeetingId()] run on a finite supply of draws: every turn
    of the loop uses eight of them, so [length draws] turns exhaust it. [None]
    stands for a loop still running when the supply ends. *)
Definition generateMeetingId (e : env) (d : gmap string Meeting.t)
    (draws : list nat) : option (exn + string) :=
  generate_loop e d (length draws) draws.

(** Every character of [s] is one of [characters]. *)
Definition in_alphabet (s : string) : bool :=
  forallb (λ c, existsb (Ascii.eqb c) (String.list_ascii_of_string characters))
          (String.list_ascii_of_string s).

(** The identifier spelled by a block of draws. *)
Definition spelled (block : list nat) : string :=
  foldr (λ i tail, charAt characters i +:+ tail) "" block.

(** The [meeting-deleted] event of the DELETE route. *)
Inductive route_event :=
| MeetingDeleted (message meetingId : string).

Record route_emission := {
  route_recipients : gset string;
  route_payload : route_event
}.

(** [router.delete('/:meetingId', authenticateToken, ...)]: [uid] is
    [req.user._id]. The meeting is looked up whether active or not;
    [delete_rejects] tells whether [Meeting.findOneAndDelete] rejects, which
    happens after the room has been told. *)
Definition delete_meeting (e : env) (delete_rejects : bool)
    (uid meetingId : string) (st : state)
  : response * state * list route_emission :=
  let internal_error :=
    {| status := 500; success := false;
       res_message := "Internal server error"; res_participant := None |} in
  if findOne_rejects e then (internal_error, st, [])
  else
    match db st !! toUpperCase meetingId with
    | None =>
        ({| status := 404; success := false;
            res_message := "Meeting not found"; res_participant := None |},
         st, [])
    | Some meeting =>
        match Meeting.isUserHost meeting (Some uid) with
        | inl _ => (internal_error, st, [])
        | inr false =>
            ({| status := 403; success := false;
                res_message := "Only the host can delete the meeting";
                res_participant := None |}, st, [])
        | inr true =>
            let out :=
              [{| route_recipients := room st meetingId;
                  route_payload :=
                    MeetingDeleted "Meeting has been deleted by the host"
                      (Meeting.meetingId meeting) |}] in
            if delete_rejects then (internal_error, st, out)
            else
              ({| status := 200; success := true;
                  res_message := "Meeting deleted successfully";
                  res_participant := None |},
               {| db := delete (toUpperCase meetingId) (db st);
                  sockets := sockets st; rooms := rooms st |},
               out)
        end
    end.

(** What the server is asked to do: an inbound socket event, or one of the
    two REST calls on the participant list. *)
Inductive request :=
| Event (sid : string) (sock : Socket) (i : inbound)
| PostJoin (uid nm meetingId : string) (body : jsval)
| PostLeave (uid nm meetingId : string).

Definition serve (e : env) (rq : request) (st : state) : state :=
  match rq with
  | Event sid sock i => final (run (handler e sid sock i) st)
  | PostJoin uid nm meetingId body =>
      final (run (post_join e uid nm meetingId body) st)
  | PostLeave uid nm meetingId =>
      final (run (post_leave e uid nm meetingId) st)
  end.

(** The persisted list of a meeting is no longer than [maxParticipants]. *)
Definition within_capacity (m : Meeting.t) : Prop :=
  match Meeting.maxParticipants m with
  | Meeting.Finite q =>
      (inject_Z (Z.of_nat (length (Meeting.participants m))) <= q)%Q
  | Meeting.Infinity => True
  | Meeting.NegInfinity => False
  end.

(** [maxParticipants] is a whole number, or unbounded. *)
Definition whole_capacity (m : Meeting.t) : Prop :=
  match Meeting.maxParticipants m with
  | Meeting.Finite q => ∃ k : Z, (q == inject_Z k)%Q
  | _ => True
  end.

Definition db_whole_capacity (d : gmap string Meeting.t) : Prop :=
  ∀ k m, d !! k = Some m → whole_capacity m.

Definition db_within_capacity (d : gmap string Meeting.t) : Prop :=
  ∀ k m, d !! k = Some m → within_capacity m.

(** [m'] is [m] with, at most, another participant list. *)
Definition same_but_participants (m m' : Meeting.t) : Prop :=
  m' = Meeting.set_participants m (Meeting.participants m').

(** Two collections with the same meetings, which differ at most in their
    participant lists. *)
Definition db_same_but_participants (d d' : gmap string Meeting.t) : Prop :=
  ∀ k, match d !! k, d' !! k with
       | Some m, Some m' => same_but_participants m m'
       | None, None => True
       | _, _ => False
       end.

(** Every member of every room is a connected socket. *)
Definition rooms_live (st : state) : Prop :=
  ∀ r x, x ∈ room st r → is_Some (sockets st !! x).

(** More example data. *)



(** Ann and Bob in a meeting whose capacity was set to 2.5. *)
Definition half_full : Meeting.t :=
  {| Meeting.meetingId := "ABC12345"; Meeting.hostId := "u1";
     Meeting.title := "Weekly"; Meeting.description := "";
     Meeting.isActive := true; Meeting.createdAt := 0;
     Meeting.expiresAt := 86400000; Meeting.participants := [ann; bob];
     Meeting.maxParticipants := Meeting.Finite (5 # 2);
     Meeting.requirePassword := false; Meeting.meetingPassword := None;
     Meeting.settings :=
       {| Meeting.allowChat := true; Meeting.allowScreenShare := true;
          Meeting.muteOnJoin := false; Meeting.waitingRoom := false |} |}.

Definition fresh_block : list nat := [25; 24; 23; 26; 27; 28; 35; 34].

Definition draws_for_ABC12345 : list nat := [0; 1; 2; 27; 28; 29; 30; 31].

Definition screen_ABC : jsval := JObj [("meetingId", JStr "ABC12345")].

Definition not_a_string : jsval :=
  JObj [("meetingId", JStr "ABC12345"); ("message", JNum 7)].

Definition join_other : jsval := JObj [("meetingId", JStr "XYZ98765")].

(** * Properties *)

(** ** Proof conveniences *)

Ltac unfold_M :=
  unfold run, handler, try_catch, bind, lift, ret, throw, socket_emit,
    socket_to, io_to, socket_join, socket_leave, set_currentMeeting, findOne,
    save, leave_all, forget_socket in *.

Arguments Meeting.loaded : simpl never.

Lemma loaded_set_participants m ps :
  Meeting.loaded (Meeting.set_participants m ps) =
  Meeting.set_participants m (Meeting.loaded_entry <$> ps).
Proof. reflexivity. Qed.

Ltac step_cases :=
  repeat (first [ progress simplify_eq /= | case_match ]).

Lemma toUpperCase_length s : String.length (toUpperCase s) = String.length s.
Proof. induction s as [|a s IH]; simpl; congruence. Qed.

Lemma toUpperCase_nonempty s : (0 < String.length (toUpperCase s))%nat → s ≠ "".
Proof. rewrite toUpperCase_length. intros H ->. simpl in H. lia. Qed.

(** *** Trimming *)















Lemma destructure_undefined k : destructure JUndefined k = inl TypeError.
Proof. reflexivity. Qed.

Lemma room_insert st r members r' :
  default ∅ (<[r := members]> (rooms st) !! r') =
  if decide (r = r') then members else room st r'.
Proof.
  unfold room. rewrite lookup_insert. by case_decide.
Qed.

Lemma rooms_leave_lookup sid r rs r' :
  default ∅ (rooms_leave sid r rs !! r') =
  if decide (r = r') then default ∅ (rs !! r') ∖ {[sid]} else default ∅ (rs !! r').
Proof.
  unfold rooms_leave. destruct (rs !! r) as [members|] eqn:Hr.
  - case_decide as Hempty.
    + rewrite lookup_delete. case_decide; subst; [|done].
      rewrite Hr. simpl. by rewrite Hempty.
    + rewrite lookup_insert. case_decide; subst; [|done]. by rewrite Hr.
  - case_decide; subst; [|done]. rewrite Hr. simpl. set_solver.
Qed.

Lemma leave_all_lookup sid (rs : gmap string (gset string)) r :
  default ∅ (filter (λ kv, kv.2 ≠ ∅) ((λ s, s ∖ {[sid]}) <$> rs) !! r) =
  default ∅ (rs !! r) ∖ {[sid]}.
Proof.
  rewrite map_lookup_filter, lookup_fmap.
  destruct (rs !! r) as [members|]; simpl; [|set_solver].
  case_guard as Hg; simpl in *; [done|].
  by rewrite Hg.
Qed.

Lemma db_valid_save d k m ps :
  db_valid d → d !! k = Some m →
  db_valid (<[Meeting.meetingId (Meeting.set_participants m ps) :=
               Meeting.set_participants m ps]> d).
Proof.
  intros Hd Hk k' m'. simpl. destruct (Hd _ _ Hk) as [Hid Hlen].
  rewrite Hid, lookup_insert. case_decide; [|by apply Hd].
  intros; simplify_eq. by split.
Qed.

(** ** What each handler leaves untouched *)

Section Frame.
Context (e : env) (sid : string) (sock : Socket) (data : jsval) (st : state).

Lemma webrtc_offer_state :
  final (run (webrtc_offer sid sock data) st) = st.
Proof. unfold webrtc_offer. unfold_M. by step_cases. Qed.

Lemma webrtc_answer_state :
  final (run (webrtc_answer sid sock data) st) = st.
Proof. unfold webrtc_answer. unfold_M. by step_cases. Qed.

Lemma webrtc_ice_candidate_state :
  final (run (webrtc_ice_candidate sid sock data) st) = st.
Proof. unfold webrtc_ice_candidate. unfold_M. by step_cases. Qed.

Lemma send_message_state :
  final (run (send_message e sid sock data) st) = st.
Proof. unfold send_message. unfold_M. by step_cases. Qed.

Lemma start_screen_share_state :
  final (run (start_screen_share sid sock data) st) = st.
Proof. unfold start_screen_share. unfold_M. by step_cases. Qed.

Lemma stop_screen_share_state :
  final (run (stop_screen_share sid sock data) st) = st.
Proof. unfold stop_screen_share. unfold_M. by step_cases. Qed.

(** The host's request changes nothing on the server: no flag of any
    participant is written. *)
Lemma mute_participant_state :
  final (run (mute_participant e sid sock data) st) = st.
Proof. unfold mute_participant. unfold_M. by step_cases. Qed.

Lemma update_participant_status_live :
  let st' := final (run (update_participant_status e sid sock data) st) in
  sockets st' = sockets st ∧ rooms st' = rooms st ∧
  (db_valid (db st) → db_valid (db st')).
Proof.
  unfold update_participant_status, Meeting.updateParticipant. unfold_M.
  step_cases; split_and!; try done.
  intros Hd. rewrite loaded_set_participants. eapply db_valid_save; eauto.
Qed.
End Frame.

(** ** The membership invariant holds in every reachable state *)

Lemma in_current_meeting_mono st st' sid sock :
  (∀ m, sid ∈ room st m → sid ∈ room st' m) →
  in_current_meeting st sid sock → in_current_meeting st' sid sock.
Proof.
  unfold in_current_meeting. intros Hrooms.
  destruct (currentMeeting sock); try done. intros [? ?]. split; auto.
Qed.

Lemma inv_same_live st st' :
  sockets st' = sockets st → rooms st' = rooms st →
  (db_valid (db st) → db_valid (db st')) →
  inv st → inv st'.
Proof.
  intros Hs Hr Hd [Hv Hm]. split; [auto|].
  intros sid sock Hsock. rewrite Hs in Hsock.
  eapply in_current_meeting_mono; [|by apply Hm].
  intros m. unfold room. by rewrite Hr.
Qed.

Lemma inv_connection st sid c :
  sockets st !! sid = None → inv st → inv (connection sid c st).
Proof.
  intros Hfresh [Hv Hm]. split; [done|].
  intros sid' sock. simpl. rewrite lookup_insert. case_decide as Hsid.
  - subst. intros [= <-]. by destruct c.
  - intros Hs. eapply in_current_meeting_mono; [|by apply Hm].
    intros m Hin. unfold room. simpl.
    rewrite lookup_insert. case_decide; [|done]. subst. simpl.
    apply elem_of_union_r. exact Hin.
Qed.

Lemma join_meeting_effect e sid sock data st :
  let st' := final (run (join_meeting e sid sock data) st) in
  (db_valid (db st) → db_valid (db st')) ∧
  ((sockets st' = sockets st ∧ rooms st' = rooms st) ∨
   (∃ mid meeting,
      db st !! toUpperCase mid = Some meeting ∧
      sockets st' =
        <[sid := {| userId := userId sock; userName := userName sock;
                    isAuthenticated := isAuthenticated sock;
                    currentMeeting := JStr mid |}]> (sockets st) ∧
      rooms st' = <[mid := {[sid]} ∪ room st mid]> (rooms st))).
Proof.
  unfold join_meeting. unfold_M.
  step_cases; (split; [try done; intros Hd; eapply db_valid_save; eauto|]);
    try (left; done); right; eauto.
Qed.

Lemma inv_join_meeting e sid sock data st :
  sockets st !! sid = Some sock → inv st →
  inv (final (run (join_meeting e sid sock data) st)).
Proof.
  intros Hsock Hinv.
  destruct (join_meeting_effect e sid sock data st) as [Hd [[Hs Hr]|Hjoin]].
  { by eapply inv_same_live. }
  destruct Hjoin as (mid & meeting & Hfound & Hs & Hr).
  destruct Hinv as [Hv Hm]. split; [auto|].
  intros sid' sock'. rewrite Hs, lookup_insert. case_decide as Hsid.
  - subst. intros [= <-]. unfold in_current_meeting. simpl. split.
    + apply toUpperCase_nonempty. destruct (Hv _ _ Hfound) as [_ Hlen]. lia.
    + unfold room. rewrite Hr, lookup_insert_eq. simpl. set_solver.
  - intros Hs'. eapply in_current_meeting_mono; [|by apply Hm].
    intros m Hin. unfold room. rewrite Hr, lookup_insert.
    case_decide; [|done]. subst. simpl. apply elem_of_union_r. exact Hin.
Qed.

Lemma inv_leave_meeting sid sock st :
  sockets st !! sid = Some sock → inv st →
  inv (final (run (leave_meeting sid sock) st)).
Proof.
  intros Hsock [Hv Hm]. unfold leave_meeting.
  destruct (truthy (currentMeeting sock)); [|by split]. unfold_M.
  destruct (currentMeeting sock) as [| | | |mid|] eqn:Hcur; simpl.
  all: split; [done|]; intros sid' sock'; simpl.
  all: rewrite lookup_insert; case_decide as Hsid; [by intros [= <-]|].
  all: intros Hs'; eapply in_current_meeting_mono; [|by apply Hm]; try done.
  intros m Hin. unfold room. simpl.
  rewrite rooms_leave_lookup. case_decide; [|done].
  apply elem_of_difference. split; [done|]. set_solver.
Qed.

Lemma inv_disconnect sid sock st :
  inv st → inv (final (run (disconnect sid sock) st)).
Proof.
  intros [Hv Hm]. unfold disconnect. unfold_M.
  assert (inv {| db := db st; sockets := delete sid (sockets st);
                 rooms := filter (λ kv, kv.2 ≠ ∅)
                            ((λ s, s ∖ {[sid]}) <$> rooms st) |}) as Hgoal.
  { split; [done|]. intros sid' sock'. simpl.
    rewrite lookup_delete. case_decide as Hsid; [done|].
    intros Hs'. eapply in_current_meeting_mono; [|by apply Hm].
    intros m Hin. unfold room. simpl.
    rewrite leave_all_lookup. apply elem_of_difference. split; [done|].
    set_solver. }
  by step_cases.
Qed.

Lemma post_join_live e uid nm meetingId body st :
  let st' := final (run (post_join e uid nm meetingId body) st) in
  sockets st' = sockets st ∧ rooms st' = rooms st ∧
  (db_valid (db st) → db_valid (db st')).
Proof.
  unfold post_join, Meeting.addParticipant. unfold_M.
  step_cases; split_and!; try done.
  all: intros Hd; eapply db_valid_save; eauto.
Qed.

Lemma post_leave_live e uid nm meetingId st :
  let st' := final (run (post_leave e uid nm meetingId) st) in
  sockets st' = sockets st ∧ rooms st' = rooms st ∧
  (db_valid (db st) → db_valid (db st')).
Proof.
  unfold post_leave, Meeting.removeParticipant. unfold_M.
  step_cases; split_and!; try done.
  all: intros Hd; eapply db_valid_save; eauto.
Qed.

Lemma inv_handler e sid sock i st :
  sockets st !! sid = Some sock → inv st →
  inv (final (run (handler e sid sock i) st)).
Proof.
  intros Hsock Hinv. destruct i; simpl.
  - by apply inv_join_meeting.
  - by rewrite webrtc_offer_state.
  - by rewrite webrtc_answer_state.
  - by rewrite webrtc_ice_candidate_state.
  - by rewrite send_message_state.
  - destruct (update_participant_status_live e sid sock data st) as (?&?&?).
    by eapply inv_same_live.
  - by rewrite start_screen_share_state.
  - by rewrite stop_screen_share_state.
  - by rewrite mute_participant_state.
  - by apply inv_leave_meeting.
  - by apply inv_disconnect.
Qed.

Lemma reachable_inv st : reachable st → inv st.
Proof.
  induction 1 as [d Hd|st sid c _ IH Hfresh|st e sid sock i _ IH Hsock
                 |st e uid nm meetingId body _ IH|st e uid nm meetingId _ IH].
  - split; [done|]. intros sid sock. simpl. by rewrite lookup_empty.
  - by apply inv_connection.
  - by apply inv_handler.
  - destruct (post_join_live e uid nm meetingId body st) as (?&?&?).
    by eapply inv_same_live.
  - destruct (post_leave_live e uid nm meetingId st) as (?&?&?).
    by eapply inv_same_live.
Qed.




(** ** The example states are reachable *)

Lemma db_valid_start capacity password : db_valid (db (start capacity password)).
Proof.
  intros k m. simpl. rewrite lookup_singleton. case_decide; [|done].
  intros [= <-]. subst. split; [done|]. simpl. lia.
Qed.

Lemma reachable_start capacity password : reachable (start capacity password).
Proof. apply reach_init, db_valid_start. Qed.

Lemma reachable_enter sid c data st :
  reachable st → sockets st !! sid = None → reachable (enter sid c data st).
Proof.
  intros Hr Hfresh. unfold enter.
  apply (reach_event _ e0 sid (authenticate c) (JoinMeeting data)).
  - by apply reach_connection.
  - simpl. apply lookup_insert_eq.
Qed.

Lemma reachable_full_house : reachable full_house.
Proof.
  apply reach_connection; [|by vm_compute].
  apply reachable_enter; [|by vm_compute].
  apply reachable_enter; [|by vm_compute].
  apply reachable_start.
Qed.

Lemma reachable_locked : reachable locked.
Proof. apply reachable_enter; [|by vm_compute]. apply reachable_start. Qed.

Lemma reachable_with_guest : reachable with_guest.
Proof.
  apply reachable_enter; [|by vm_compute].
  apply reachable_enter; [|by vm_compute].
  apply reachable_start.
Qed.

Lemma reachable_with_bob : reachable with_bob.
Proof.
  apply reachable_enter; [|by vm_compute].
  apply reachable_enter; [|by vm_compute].
  apply reachable_start.
Qed.



(** ** Joining as a guest never writes to the collection *)

(** C10. A [join-meeting] sent by a guest session (one the middleware left
    unauthenticated) leaves the whole meetings collection as it was, whatever
    the payload and whatever the persistence layer answers: no participant is
    appended and no field of any meeting changes. Hence only an authenticated
    join can append to a persisted participant list. *)
Theorem guest_join_keeps_meeting_record e sid sock data st :
  isAuthenticated sock = false →
  db (final (run (join_meeting e sid sock data) st)) = db st.
Proof.
  intros Hguest. unfold join_meeting. rewrite Hguest. unfold_M.
  by step_cases.
Qed.

Lemma guest_join_keeps_meeting_record_witness :
  isAuthenticated (authenticate NoToken) = false ∧
  db (final (run (join_meeting e0 "s2" (authenticate NoToken) join_ABC)
               (connection "s2" NoToken locked)))
  = db (connection "s2" NoToken locked).
Proof.
  split; [reflexivity|].
  apply (guest_join_keeps_meeting_record e0 "s2" (authenticate NoToken)
           join_ABC (connection "s2" NoToken locked)).
  reflexivity.
Defined.

(** The handler's [some] over the participants and the model's [find] agree. *)
Lemma some_participant_find uid ps :
  existsb (λ p, bool_decide (Some (Meeting.userId p) = Some uid)) ps =
  bool_decide (is_Some (Meeting.find uid ps)).
Proof.
  unfold Meeting.find. induction ps as [|p ps IH]; [done|].
  cbn [existsb List.find].
  destruct (decide (Meeting.userId p = uid)) as [Heq|Hne].
  - rewrite (bool_decide_eq_true_2 (Some _ = Some _)) by congruence.
    rewrite (bool_decide_eq_true_2 (Meeting.userId p = uid)) by done.
    symmetry. apply bool_decide_eq_true_2. by eexists.
  - rewrite (bool_decide_eq_false_2 (Some _ = Some _)) by congruence.
    rewrite (bool_decide_eq_false_2 (Meeting.userId p = uid)) by done.
    exact IH.
Qed.

Lemma some_participant_none uid ps :
  existsb (λ p, bool_decide (Some (Meeting.userId p) = Some uid)) ps = false →
  Meeting.find uid ps = None.
Proof.
  rewrite some_participant_find. intros H%bool_decide_eq_false.
  destruct (Meeting.find uid ps); [|done]. destruct H. by eexists.
Qed.

(** What a join can do to the collection at all: nothing, or append the
    joiner's entry to the meeting it found, and the latter only for an
    authenticated session. *)
Lemma join_meeting_db e sid sock data st :
  let st' := final (run (join_meeting e sid sock data) st) in
  db st' = db st ∨
  ∃ meeting uid,
    isAuthenticated sock = true ∧ userId sock = Some uid ∧
    (∃ k, db st !! k = Some meeting) ∧
    Meeting.find uid (Meeting.participants meeting) = None ∧
    db st' =
      <[Meeting.meetingId meeting :=
          Meeting.set_participants meeting
            (Meeting.participants meeting ++
             [Meeting.subdocument uid (userName sock) (new_Date e) false])]>
        (db st).
Proof.
  unfold join_meeting. unfold_M.
  destruct (isAuthenticated sock) eqn:Hauth; step_cases; try (by left).
  all: right; eexists _, _; split_and!; try done; eauto.
  all: by apply some_participant_none.
Qed.

(** ** Errors at the handler boundary *)

(** X24. The four handlers written with [try]/[catch] return on every payload and
    every answer of the persistence layer. *)
Lemma guarded_handlers_return e sid sock data st :
  returned (run (join_meeting e sid sock data) st) = true ∧
  returned (run (send_message e sid sock data) st) = true ∧
  returned (run (update_participant_status e sid sock data) st) = true ∧
  returned (run (mute_participant e sid sock data) st) = true.
Proof.
  unfold join_meeting, send_message, update_participant_status,
    mute_participant, Meeting.updateParticipant, Meeting.isUserHost.
  unfold_M. split_and!; by step_cases.
Qed.

(** X23. An [error] event, from whichever handler, goes to the socket that sent
    the inbound event and to nobody else. *)
Lemma error_only_to_sender e sid sock i st em msg :
  em ∈ emitted (run (handler e sid sock i) st) →
  payload em = EvError msg →
  recipients em = {[sid]}.
Proof.
  destruct i; simpl;
    unfold join_meeting, webrtc_offer, webrtc_answer, webrtc_ice_candidate,
      send_message, update_participant_status, start_screen_share,
      stop_screen_share, mute_participant, leave_meeting, disconnect,
      Meeting.updateParticipant, Meeting.isUserHost;
    unfold_M; step_cases; intros Hin Hpay;
    repeat (apply elem_of_cons in Hin as [->|Hin]; simpl in *; try done);
    by apply elem_of_nil in Hin.
Qed.

(** C4 (the run that breaks it). A [webrtc-offer], [webrtc-answer] or
    [webrtc-ice-candidate] event that arrives without a payload makes the
    handler raise a [TypeError] out of the handler: these three have no
    [try]/[catch], and no [error] event is sent to anyone. *)
Theorem relay_without_payload_raises sid sock st :
  run (webrtc_offer sid sock JUndefined) st = Throw TypeError st [] ∧
  run (webrtc_answer sid sock JUndefined) st = Throw TypeError st [] ∧
  run (webrtc_ice_candidate sid sock JUndefined) st = Throw TypeError st [].
Proof. by split_and!. Qed.

(** The same payload-less event is caught by a guarded handler. *)
Lemma join_without_payload_is_caught e sid sock st :
  run (join_meeting e sid sock JUndefined) st =
  Ok tt st [{| recipients := {[sid]};
               payload := EvError "Failed to join meeting" |}].
Proof. reflexivity. Qed.

(** ** Chat *)




(** The chat scenario: Ann sends "  hello " while Bob is in the room, and
    both get one and the same record. *)
Example chat_hello :
  ∃ record,
    run (send_message e0 "s1" ann_socket hello) with_bob =
      Ok tt with_bob [{| recipients := {["s1"; "s2"]};
                         payload := NewMessage record |}] ∧
    message record = "hello" ∧ msg_userName record = "Ann" ∧
    id record = "1700000000000".
Proof. eexists. split; [by vm_compute|]. by vm_compute. Qed.

(** ** Signalling relay *)




(** The relay handlers never look at the sender's membership: Cy, connected
    but in no meeting, relays an offer into the room of Ann and Bob. *)
Lemma relay_from_outside_the_room :
  sockets full_house !! "s3" = Some (authenticate Cy) ∧
  ("s3" ∉ room full_house "ABC12345") ∧
  run (webrtc_offer "s3" (authenticate Cy) offer_to_ann) full_house =
    Ok tt full_house
      [{| recipients := {["s1"; "s2"]};
          payload := WebrtcOffer "u3" "Cy"
                       (JObj [("type", JStr "offer"); ("sdp", JStr "v=0")]) |}].
Proof. split_and!; by vm_compute. Qed.

(** ** What a join announces *)

Lemma room_after_join st sid m :
  ({[sid]} ∪ room st m) ∖ {[sid]} = room st m ∖ {[sid]}.
Proof. set_solver. Qed.




(** ** Status updates *)


Lemma assign_first_userIds uid muted videoOn ps :
  Meeting.userId <$> Meeting.assign_first uid muted videoOn ps =
  Meeting.userId <$> ps.
Proof.
  induction ps as [|p ps IH]; [done|]. cbn [Meeting.assign_first].
  destruct (bool_decide (Meeting.userId p = uid)); [done|].
  cbn [fmap list_fmap]. f_equal. exact IH.
Qed.

Lemma assign_first_find uid muted videoOn ps p :
  Meeting.find uid ps = Some p →
  Meeting.find uid (Meeting.assign_first uid muted videoOn ps) =
  Some (Meeting.assign p muted videoOn).
Proof.
  unfold Meeting.find. induction ps as [|q ps IH]; [done|].
  cbn [List.find Meeting.assign_first].
  destruct (bool_decide (Meeting.userId q = uid)) eqn:Hq.
  - intros [= <-]. cbn [List.find]. simpl. by rewrite Hq.
  - intros Hp. cbn [List.find]. rewrite Hq. by apply IH.
Qed.



(** Bob mutes himself: Ann and Bob both get the event, with the flag he sent
    and nothing for the one he did not send; his persisted entry holds the
    flag sent, and the schema default for the other. *)
Example bob_mutes_himself :
  ∃ st',
    run (update_participant_status e0 "s2" bob_socket muted_only) with_bob =
      Ok tt st'
        [{| recipients := {["s1"; "s2"]};
            payload := ParticipantStatusUpdated (Some "u2") "Bob" (JBool true)
                         JUndefined |}] ∧
    Meeting.participants <$> db st' !! "ABC12345" =
      Some [ann; Meeting.assign bob (JBool true) (JBool true)].
Proof. eexists. split; by vm_compute. Qed.


(** A guest in the room cannot update a status at all: the lookup of the
    entry raises on the missing user identifier. *)
Example guest_status_update_fails :
  run (update_participant_status e0 "s2" guest_socket muted_only) with_guest =
    Ok tt with_guest [{| recipients := {["s2"]};
                         payload := EvError "Failed to update status" |}].
Proof. by vm_compute. Qed.

(** ** Capacity *)

(** The REST route refuses a newcomer once the persisted list has reached
    [maxParticipants], and changes nothing. *)
Lemma post_join_refuses_when_full e uid nm meetingId body st meeting password :
  destructure body "password" = inr password →
  findOne_rejects e = false →
  db st !! toUpperCase meetingId = Some meeting →
  Meeting.isActive meeting = true →
  Meeting.requirePassword meeting &&
    negb (strict_equal (nullable (Meeting.meetingPassword meeting)) password)
      = false →
  Meeting.reached (length (Meeting.participants meeting))
                  (Meeting.maxParticipants meeting) = true →
  run (post_join e uid nm meetingId body) st =
    Ok {| status := 400; success := false; res_message := "Meeting is full";
          res_participant := None |} st [].
Proof.
  intros Hbody Hfind Hdb Hactive Hpw Hfull. unfold post_join. unfold_M.
  rewrite Hbody. simpl. by rewrite Hfind, Hdb, Hactive, Hpw, Hfull.
Qed.

(** [addParticipant] refuses likewise. *)
Lemma addParticipant_refuses_when_full m uid nm host now :
  Meeting.find uid (Meeting.participants m) = None →
  Meeting.reached (length (Meeting.participants m))
                  (Meeting.maxParticipants m) = true →
  Meeting.addParticipant m uid nm host now = inl (Error "Meeting is full").
Proof.
  intros Hnew Hfull. unfold Meeting.addParticipant. by rewrite Hnew, Hfull.
Qed.

(** C1 (the run that breaks it). Meeting ABC12345 is configured for two
    participants; Ann and Bob are in its room and in its persisted list. Cy
    sends [join-meeting]: no capacity test stands in the socket handler, so
    Cy is registered as third member of the room and third persisted
    participant, Ann and Bob are told, and Cy gets the [meeting-joined] reply
    instead of "Meeting is full". *)
Theorem join_meeting_exceeds_capacity :
  reachable full_house ∧
  Meeting.maxParticipants <$> db full_house !! "ABC12345" = Some (Meeting.Finite (inject_Z 2)) ∧
  room full_house "ABC12345" = {["s1"; "s2"]} ∧
  ∃ st',
    run (join_meeting e0 "s3" (authenticate Cy) join_ABC) full_house =
      Ok tt st'
        [{| recipients := {["s1"; "s2"]};
            payload := UserConnected "u3" "Cy" "s3" false |};
         {| recipients := {["s3"]};
            payload := MeetingJoined "ABC12345" [view ann; view bob; view cy]
                         false |}] ∧
    room st' "ABC12345" = {["s1"; "s2"; "s3"]} ∧
    size (room st' "ABC12345") = 3%nat ∧
    Meeting.participants <$> db st' !! "ABC12345" = Some [ann; bob; cy] ∧
    Meeting.maxParticipants <$> db st' !! "ABC12345" = Some (Meeting.Finite (inject_Z 2)).
Proof.
  split; [apply reachable_full_house|].
  split; [by vm_compute|]. split; [by vm_compute|].
  eexists. split; [by vm_compute|]. split_and!; by vm_compute.
Qed.

(** The same newcomer is refused by the REST route. *)
Example post_join_full_house :
  run (post_join e0 "u3" "Cy" "ABC12345" (JObj [])) full_house =
    Ok {| status := 400; success := false; res_message := "Meeting is full";
          res_participant := None |} full_house [].
Proof. by vm_compute. Qed.

(** ** Meeting passwords *)

(** The REST route compares the password of a protected meeting with the one
    in the request body and answers 401 on a mismatch, changing nothing. *)
Lemma post_join_checks_password e uid nm meetingId body st meeting password :
  destructure body "password" = inr password →
  findOne_rejects e = false →
  db st !! toUpperCase meetingId = Some meeting →
  Meeting.isActive meeting = true →
  Meeting.requirePassword meeting = true →
  strict_equal (nullable (Meeting.meetingPassword meeting)) password = false →
  run (post_join e uid nm meetingId body) st =
    Ok {| status := 401; success := false;
          res_message := "Invalid meeting password";
          res_participant := None |} st [].
Proof.
  intros Hbody Hfind Hdb Hactive Hreq Hpw. unfold post_join. unfold_M.
  rewrite Hbody. simpl. by rewrite Hfind, Hdb, Hactive, Hreq, Hpw.
Qed.

(** C2 (the run that breaks it). Ann is in her meeting, protected by the
    password "secret". A guest sends [join-meeting] with a wrong password:
    the socket handler never reads a credential, so the guest is put in the
    room and Ann is told. Bob, authenticated, sends no password at all: he
    is put in the room, appended to the persisted list and welcomed. The
    REST route answers 401 to that wrong password. *)
Theorem join_meeting_ignores_password :
  reachable locked ∧
  Meeting.requirePassword <$> db locked !! "ABC12345" = Some true ∧
  Meeting.meetingPassword <$> db locked !! "ABC12345" = Some (Some "secret") ∧
  (∃ st',
     run (join_meeting e0 "s2" (authenticate NoToken) join_wrong_password)
         (connection "s2" NoToken locked) =
       Ok tt st'
         [{| recipients := {["s1"]};
             payload := UserConnected "guest-s2" "Guest" "s2" true |};
          {| recipients := {["s2"]};
             payload := EvError "Failed to join meeting" |}] ∧
     room st' "ABC12345" = {["s1"; "s2"]} ∧
     currentMeeting <$> sockets st' !! "s2" = Some (JStr "ABC12345")) ∧
  (∃ st',
     run (join_meeting e0 "s2" (authenticate Bob) join_ABC)
         (connection "s2" Bob locked) =
       Ok tt st'
         [{| recipients := {["s1"]};
             payload := UserConnected "u2" "Bob" "s2" false |};
          {| recipients := {["s2"]};
             payload := MeetingJoined "ABC12345" [view ann; view bob] false |}] ∧
     room st' "ABC12345" = {["s1"; "s2"]} ∧
     Meeting.participants <$> db st' !! "ABC12345" = Some [ann; bob]) ∧
  run (post_join e0 "u2" "Bob" "ABC12345" wrong_password) locked =
    Ok {| status := 401; success := false;
          res_message := "Invalid meeting password";
          res_participant := None |} locked [].
Proof.
  split; [apply reachable_locked|].
  split; [by vm_compute|]. split; [by vm_compute|].
  split; [eexists; split_and!; by vm_compute|].
  split; [eexists; split_and!; by vm_compute|].
  by vm_compute.
Qed.

(** ** Rejoining *)

Lemma find_none_not_in uid ps :
  Meeting.find uid ps = None → uid ∉ Meeting.userId <$> ps.
Proof.
  unfold Meeting.find. intros Hnone Hin.
  apply list_elem_of_fmap in Hin as (p & -> & Hin).
  apply list_elem_of_In in Hin.
  pose proof (find_none _ _ Hnone p Hin) as Hp. simpl in Hp.
  by apply bool_decide_eq_false in Hp.
Qed.

Lemma unique_users_push m uid nm now host :
  unique_users m →
  Meeting.find uid (Meeting.participants m) = None →
  unique_users
    (Meeting.set_participants m
       (Meeting.participants m ++ [Meeting.subdocument uid nm now host])).
Proof.
  unfold unique_users. simpl. intros Hm Hnew. rewrite fmap_app. simpl.
  apply NoDup_app. split; [done|]. split; [|apply NoDup_singleton].
  intros x Hx Hx'. apply list_elem_of_singleton in Hx'. subst x.
  by apply find_none_not_in in Hnew.
Qed.

Lemma db_unique_insert d k m :
  db_unique d → unique_users m → db_unique (<[k := m]> d).
Proof.
  intros Hd Hm k' m'. rewrite lookup_insert. case_decide; [|by apply Hd].
  by intros [= <-].
Qed.

(** Neither way of joining ever gives a user a second persisted entry. *)
Lemma post_join_keeps_users_unique e uid nm meetingId body st :
  db_unique (db st) →
  db_unique (db (final (run (post_join e uid nm meetingId body) st))).
Proof.
  intros Hd. unfold post_join, Meeting.addParticipant. unfold_M.
  step_cases; try done.
  all: apply db_unique_insert; [done|].
  all: apply unique_users_push; [by eapply Hd|done].
Qed.

Lemma join_meeting_keeps_users_unique e sid sock data st :
  db_unique (db st) →
  db_unique (db (final (run (join_meeting e sid sock data) st))).
Proof.
  intros Hd. destruct (join_meeting_db e sid sock data st) as [Hsame|Hpush].
  { by rewrite Hsame. }
  destruct Hpush as (meeting & uid & _ & _ & [k Hk] & Hnew & Hdb).
  rewrite Hdb. apply db_unique_insert; [done|].
  apply unique_users_push; [by eapply Hd|done].
Qed.

(** Through the socket a rejoin is never refused for want of room: the entry
    found is kept and the collection is not written. *)
Lemma socket_rejoin_reuses_entry st e sid sock data m meeting uid p :
  isAuthenticated sock = true →
  userId sock = Some uid →
  destructure data "meetingId" = inr (JStr m) →
  findOne_rejects e = false →
  db st !! toUpperCase m = Some meeting →
  Meeting.isActive meeting = true →
  Meeting.find uid (Meeting.participants meeting) = Some p →
  let r := run (join_meeting e sid sock data) st in
  returned r = true ∧ db (final r) = db st ∧
  delivered sid
    (MeetingJoined m (view <$> Meeting.participants meeting)
       (bool_decide (Meeting.hostId meeting = uid)))
    (emitted r).
Proof.
  intros Hauth Huid Hdata Hfind Hdb Hactive Hp r. subst r.
  unfold join_meeting. unfold_M.
  rewrite Hdata. simpl. rewrite Hfind, Hdb, Hactive, Hauth, Huid.
  rewrite some_participant_find, Hp.
  rewrite bool_decide_eq_true_2 by (by eexists). simpl.
  split_and!; try done.
  eexists. split; [apply elem_of_cons; right; apply list_elem_of_singleton; done|].
  split; [|done]. simpl. by apply elem_of_singleton.
Qed.

(** C5 (the run that breaks it). Bob has a persisted entry in ABC12345, a
    meeting for two that holds Ann and Bob. He calls POST /join/ABC12345
    again: the route tests the capacity before it looks for his entry, and
    answers 400 "Meeting is full". [addParticipant], asked the same, returns
    his entry, and so does the socket handler. *)
Theorem post_join_refuses_rejoin_when_full :
  reachable full_house ∧
  (Meeting.find "u2" ∘ Meeting.participants) <$> db full_house !! "ABC12345"
    = Some (Some bob) ∧
  run (post_join e0 "u2" "Bob" "ABC12345" (JObj [])) full_house =
    Ok {| status := 400; success := false; res_message := "Meeting is full";
          res_participant := None |} full_house [] ∧
  (∃ meeting,
     db full_house !! "ABC12345" = Some meeting ∧
     Meeting.addParticipant meeting "u2" "Bob" false (new_Date e0) =
       inr (meeting, Meeting.Found bob)) ∧
  run (join_meeting e0 "s2" bob_socket join_ABC) full_house =
    Ok tt full_house
      [{| recipients := {["s1"]};
          payload := UserConnected "u2" "Bob" "s2" false |};
       {| recipients := {["s2"]};
          payload := MeetingJoined "ABC12345" [view ann; view bob] false |}].
Proof.
  split; [apply reachable_full_house|].
  split; [by vm_compute|]. split; [by vm_compute|].
  split; [eexists; split; by vm_compute|].
  by vm_compute.
Qed.

(** ** Mute requests *)

(** X22. An authenticated requester: the host's request goes out as one
    [mute-request] event carrying the target's user identifier, to the room;
    anybody else gets "Not authorized to mute participants", alone. Either
    way the server state stays as it was. *)
Lemma mute_participant_authenticated st e sid sock data roomId target uid meeting :
  destructure data "meetingId" = inr (JStr roomId) →
  destructure data "targetUserId" = inr target →
  userId sock = Some uid →
  findOne_rejects e = false →
  db st !! toUpperCase roomId = Some meeting →
  Meeting.isActive meeting = true →
  run (mute_participant e sid sock data) st =
    Ok tt st
      [if bool_decide (Meeting.hostId meeting = uid)
       then {| recipients := room st roomId;
               payload := MuteRequest target true |}
       else {| recipients := {[sid]};
               payload := EvError "Not authorized to mute participants" |}].
Proof.
  intros Hroom Htarget Huid Hfind Hdb Hactive.
  unfold mute_participant, Meeting.isUserHost. unfold_M.
  rewrite Hroom, Htarget. simpl. rewrite Hfind, Hdb, Hactive, Huid. simpl.
  by destruct (bool_decide (Meeting.hostId meeting = uid)).
Qed.

(** The mute scenario: Ann, the host, asks for Bob to be muted. *)
Example host_requests_mute :
  run (mute_participant e0 "s1" ann_socket mute_bob) with_bob =
    Ok tt with_bob [{| recipients := {["s1"; "s2"]};
                       payload := MuteRequest (JStr "u2") true |}].
Proof. by vm_compute. Qed.

(** C8 (the run that breaks it). A guest in the room, who is not the host,
    asks for Ann to be muted. No [mute-request] goes out, but the refusal is
    not the handler's "Not authorized to mute participants": the host test
    raises on the guest's missing user identifier and the guest gets the
    catch-all "Failed to mute participant". Bob, authenticated and not the
    host, gets the refusal proper. *)
Theorem guest_mute_request_is_not_refused_as_such :
  reachable with_guest ∧
  sockets with_guest !! "s2" = Some guest_socket ∧
  Meeting.isUserHost (abc 50 None) (userId guest_socket) = inl TypeError ∧
  run (mute_participant e0 "s2" guest_socket mute_ann) with_guest =
    Ok tt with_guest
      [{| recipients := {["s2"]};
          payload := EvError "Failed to mute participant" |}] ∧
  run (mute_participant e0 "s2" bob_socket mute_ann) with_bob =
    Ok tt with_bob
      [{| recipients := {["s2"]};
          payload := EvError "Not authorized to mute participants" |}].
Proof.
  split; [apply reachable_with_guest|]. split_and!; by vm_compute.
Qed.

(** * Further properties of the model and of the handlers *)

(** ** Meeting.js: the participant list *)

Lemma find_app_none uid ps qs :
  Meeting.find uid ps = None →
  Meeting.find uid (ps ++ qs) = Meeting.find uid qs.
Proof.
  unfold Meeting.find. induction ps as [|p ps IH]; [done|].
  cbn [List.find app]. destruct (bool_decide (Meeting.userId p = uid)); [done|].
  exact IH.
Qed.

Lemma find_app_other uid ps q :
  Meeting.userId q ≠ uid →
  Meeting.find uid (ps ++ [q]) = Meeting.find uid ps.
Proof.
  intros Hq. unfold Meeting.find. induction ps as [|p ps IH].
  - cbn [List.find app]. by rewrite bool_decide_eq_false_2.
  - cbn [List.find app]. destruct (bool_decide (Meeting.userId p = uid)); [done|].
    exact IH.
Qed.

Lemma find_userId uid ps p :
  Meeting.find uid ps = Some p → Meeting.userId p = uid.
Proof.
  unfold Meeting.find. intros Hp. apply find_some in Hp as [_ Hp].
  by apply bool_decide_eq_true in Hp.
Qed.

(** X1. What [addParticipant] returns and what it stores. For a user with an
    entry it returns that stored entry and leaves the meeting as it is. For
    a newcomer it returns the object literal [{ userId, name, isHost }] it
    was called with, and the list receives, at its end, the subdocument made
    of that literal: the same three fields, the join time, not muted, video
    on. Either way the user has one stored entry afterwards, and adding the
    same user again, under whatever name or host flag, returns that stored
    entry and leaves the meeting as it is. *)
Theorem addParticipant_returns_stored_entry m uid nm host now m' result :
  Meeting.addParticipant m uid nm host now = inr (m', result) →
  ∃ stored,
    Meeting.find uid (Meeting.participants m') = Some stored ∧
    Meeting.userId stored = uid ∧
    match Meeting.find uid (Meeting.participants m) with
    | Some existingParticipant =>
        result = Meeting.Found existingParticipant ∧
        stored = existingParticipant ∧ m' = m
    | None =>
        result = Meeting.Pushed uid nm host ∧
        stored = {| Meeting.userId := uid; Meeting.name := nm;
                    Meeting.joinedAt := now; Meeting.isMuted := JBool false;
                    Meeting.isVideoOn := JBool true; Meeting.isHost := host |} ∧
        Meeting.participants m' = (Meeting.participants m ++ [stored])%list
    end ∧
    ∀ nm' host' now',
      Meeting.addParticipant m' uid nm' host' now' =
      inr (m', Meeting.Found stored).
Proof.
  unfold Meeting.addParticipant.
  destruct (Meeting.find uid (Meeting.participants m)) as [q|] eqn:Hfind.
  - intros [= <- <-]. exists q. split; [done|].
    split; [by eapply find_userId|]. split; [done|].
    intros. by rewrite Hfind.
  - destruct (Meeting.reached _ _); [done|]. intros [= <- <-]. simpl.
    assert (Meeting.find uid
              (Meeting.participants m ++ [Meeting.subdocument uid nm now host])
            = Some (Meeting.subdocument uid nm now host)) as Hnew.
    { rewrite find_app_none by done. unfold Meeting.find. simpl.
      by rewrite bool_decide_eq_true_2. }
    exists (Meeting.subdocument uid nm now host).
    split; [done|]. split; [done|]. split; [done|].
    intros. by rewrite Hnew.
Qed.

Lemma addParticipant_returns_stored_entry_witness :
  ∃ stored,
    Meeting.find "u2"
      (Meeting.participants (Meeting.set_participants (abc 50 None) [ann; bob]))
      = Some stored ∧
    Meeting.userId stored = "u2" ∧
    match Meeting.find "u2" (Meeting.participants (abc 50 None)) with
    | Some existingParticipant =>
        Meeting.Pushed "u2" "Bob" false = Meeting.Found existingParticipant ∧
        stored = existingParticipant ∧
        Meeting.set_participants (abc 50 None) [ann; bob] = abc 50 None
    | None =>
        Meeting.Pushed "u2" "Bob" false = Meeting.Pushed "u2" "Bob" false ∧
        stored = {| Meeting.userId := "u2"; Meeting.name := "Bob";
                    Meeting.joinedAt := 1700000000000;
                    Meeting.isMuted := JBool false;
                    Meeting.isVideoOn := JBool true; Meeting.isHost := false |} ∧
        Meeting.participants (Meeting.set_participants (abc 50 None) [ann; bob])
        = (Meeting.participants (abc 50 None) ++ [stored])%list
    end ∧
    ∀ nm' host' now',
      Meeting.addParticipant (Meeting.set_participants (abc 50 None) [ann; bob])
        "u2" nm' host' now'
      = inr (Meeting.set_participants (abc 50 None) [ann; bob],
             Meeting.Found stored).
Proof.
  apply (addParticipant_returns_stored_entry (abc 50 None) "u2" "Bob" false
           1700000000000).
  reflexivity.
Defined.

Lemma not_reached_room_for_one len q :
  (∃ k : Z, (q == inject_Z k)%Q) →
  Meeting.reached len (Meeting.Finite q) = false →
  (inject_Z (Z.of_nat (len + 1)) <= q)%Q.
Proof.
  intros [k Hk] Hfree. simpl in Hfree.
  assert (¬ (q <= inject_Z (Z.of_nat len))%Q) as Hlt.
  { intros Hle. apply Qle_bool_iff in Hle. congruence. }
  apply Qnot_le_lt in Hlt. rewrite Hk in Hlt |- *.
  rewrite <- Zlt_Qlt in Hlt. rewrite <- Zle_Qle. lia.
Qed.

(** X2. [addParticipant] never takes a meeting beyond its capacity, provided
    the capacity is a whole number (the schema would also store 2.5): when
    the list is within [maxParticipants] before, it is so after every
    successful call, and [maxParticipants] itself is not changed. The one
    error it raises is "Meeting is full", and only for a user without an
    entry in a meeting whose list has reached [maxParticipants]. *)
Theorem addParticipant_within_capacity m uid nm host now :
  within_capacity m →
  whole_capacity m →
  match Meeting.addParticipant m uid nm host now with
  | inr (m', _) =>
      within_capacity m' ∧
      Meeting.maxParticipants m' = Meeting.maxParticipants m
  | inl err =>
      err = Error "Meeting is full" ∧
      Meeting.find uid (Meeting.participants m) = None ∧
      ∃ q, Meeting.maxParticipants m = Meeting.Finite q ∧
           (inject_Z (Z.of_nat (length (Meeting.participants m))) == q)%Q
  end.
Proof.
  unfold within_capacity, whole_capacity, Meeting.addParticipant.
  intros Hcap Hwhole.
  destruct (Meeting.find uid (Meeting.participants m)); [done|].
  destruct (Meeting.reached _ _) eqn:Hfull.
  - split; [done|]. split; [done|].
    destruct (Meeting.maxParticipants m) as [q| |]; try done.
    exists q. split; [done|]. simpl in Hfull. apply Qle_bool_iff in Hfull.
    by apply Qle_antisym.
  - simpl. split; [|done].
    destruct (Meeting.maxParticipants m) as [q| |]; try done.
    rewrite length_app. simpl. by apply not_reached_room_for_one.
Qed.

Lemma addParticipant_within_capacity_witness :
  match Meeting.addParticipant (abc 2 None) "u2" "Bob" false 1700000000000 with
  | inr (m', _) =>
      within_capacity m' ∧
      Meeting.maxParticipants m' = Meeting.maxParticipants (abc 2 None)
  | inl err =>
      err = Error "Meeting is full" ∧
      Meeting.find "u2" (Meeting.participants (abc 2 None)) = None ∧
      ∃ q, Meeting.maxParticipants (abc 2 None) = Meeting.Finite q ∧
           (inject_Z (Z.of_nat (length (Meeting.participants (abc 2 None))))
            == q)%Q
  end.
Proof.
  apply (addParticipant_within_capacity (abc 2 None) "u2" "Bob" false
           1700000000000).
  - unfold within_capacity. simpl. by vm_compute.
  - unfold whole_capacity. simpl. by exists 2%Z.
Defined.

(** With a capacity of 2.5 the same call takes a list of two to three. *)
Example fractional_capacity_admits_a_third :
  let m := half_full in
  within_capacity m ∧
  ∃ m' result,
    Meeting.addParticipant m "u3" "Cy" false 1700000000000 = inr (m', result) ∧
    length (Meeting.participants m') = 3%nat ∧ ¬ within_capacity m'.
Proof.
  split; [by vm_compute|]. eexists _, _. split; [reflexivity|].
  split; [reflexivity|]. unfold within_capacity. simpl. by vm_compute.
Qed.

(** X3. [addParticipant] keeps user identifiers unique and does not disturb
    the other users: in the resulting meeting no identifier occurs twice if
    none did before, and every other user's entry is the one it was. *)
Theorem addParticipant_keeps_others m uid nm host now m' p :
  unique_users m →
  Meeting.addParticipant m uid nm host now = inr (m', p) →
  unique_users m' ∧
  ∀ uid', uid' ≠ uid →
    Meeting.find uid' (Meeting.participants m') =
    Meeting.find uid' (Meeting.participants m).
Proof.
  unfold Meeting.addParticipant. intros Huniq.
  destruct (Meeting.find uid (Meeting.participants m)) as [q|] eqn:Hfind.
  - by intros [= <- <-].
  - destruct (Meeting.reached _ _); [done|]. intros [= <- <-]. split.
    + by apply unique_users_push.
    + intros uid' Hne. simpl. apply find_app_other. simpl. congruence.
Qed.

Lemma addParticipant_keeps_others_witness :
  unique_users (Meeting.set_participants (abc 50 None) [ann; bob]) ∧
  ∀ uid', uid' ≠ "u2" →
    Meeting.find uid'
      (Meeting.participants (Meeting.set_participants (abc 50 None) [ann; bob]))
    = Meeting.find uid' (Meeting.participants (abc 50 None)).
Proof.
  apply (addParticipant_keeps_others (abc 50 None) "u2" "Bob" false
           1700000000000 (Meeting.set_participants (abc 50 None) [ann; bob])
           (Meeting.Pushed "u2" "Bob" false)).
  - unfold unique_users. simpl. apply NoDup_singleton.
  - reflexivity.
Defined.

Lemma set_participants_same m : Meeting.set_participants m (Meeting.participants m) = m.
Proof. by destruct m. Qed.

Lemma filter_absent uid ps :
  Meeting.find uid ps = None →
  List.filter (λ p, bool_decide (Meeting.userId p ≠ uid)) ps = ps.
Proof.
  unfold Meeting.find. induction ps as [|p ps IH]; [done|].
  cbn [List.find List.filter]. case_bool_decide as Hp; [done|].
  intros Hnone. rewrite bool_decide_eq_true_2 by done. by rewrite IH.
Qed.

Lemma filter_app_last uid ps q :
  Meeting.userId q = uid →
  List.filter (λ p, bool_decide (Meeting.userId p ≠ uid)) (ps ++ [q]) =
  List.filter (λ p, bool_decide (Meeting.userId p ≠ uid)) ps.
Proof.
  intros Hq. rewrite List.filter_app. simpl.
  rewrite bool_decide_eq_false_2 by (by intros ?). by rewrite app_nil_r.
Qed.

Lemma find_filter_gone uid ps :
  Meeting.find uid
    (List.filter (λ p, bool_decide (Meeting.userId p ≠ uid)) ps) = None.
Proof.
  unfold Meeting.find. induction ps as [|p ps IH]; [done|].
  cbn [List.filter]. case_bool_decide as Hp; [|exact IH].
  cbn [List.find]. by rewrite bool_decide_eq_false_2.
Qed.

Lemma find_filter_other uid uid' ps :
  uid' ≠ uid →
  Meeting.find uid'
    (List.filter (λ p, bool_decide (Meeting.userId p ≠ uid)) ps) =
  Meeting.find uid' ps.
Proof.
  intros Hne. unfold Meeting.find. induction ps as [|p ps IH]; [done|].
  cbn [List.filter List.find]. case_bool_decide as Hp.
  - cbn [List.find]. destruct (bool_decide (Meeting.userId p = uid')); [done|].
    exact IH.
  - rewrite bool_decide_eq_false_2; [exact IH|]. congruence.
Qed.

(** X4. [removeParticipant] removes the user for good and nobody else: the
    user has no entry afterwards, every other user's entry is the one it was,
    the list has not grown, and removing again changes nothing. *)
Theorem removeParticipant_removes_only_that_user m uid :
  let m' := Meeting.removeParticipant m uid in
  Meeting.find uid (Meeting.participants m') = None ∧
  (uid ∉ Meeting.userId <$> Meeting.participants m') ∧
  (∀ uid', uid' ≠ uid →
     Meeting.find uid' (Meeting.participants m') =
     Meeting.find uid' (Meeting.participants m)) ∧
  (length (Meeting.participants m') ≤ length (Meeting.participants m))%nat ∧
  Meeting.removeParticipant m' uid = m'.
Proof.
  simpl. unfold Meeting.removeParticipant. simpl.
  pose proof (find_filter_gone uid (Meeting.participants m)) as Hgone.
  split; [done|]. split; [by apply find_none_not_in|]. split; [|split].
  - intros uid' Hne. by apply find_filter_other.
  - apply List.filter_length_le.
  - unfold Meeting.set_participants. simpl. f_equal. by apply filter_absent.
Qed.

(** X5. Adding a user who had no entry and removing that user again gives
    the meeting back as it was. *)
Theorem add_then_remove m uid nm host now m' p :
  Meeting.find uid (Meeting.participants m) = None →
  Meeting.addParticipant m uid nm host now = inr (m', p) →
  Meeting.removeParticipant m' uid = m.
Proof.
  unfold Meeting.addParticipant. intros Hnew. rewrite Hnew.
  destruct (Meeting.reached _ _); [done|]. intros [= <- <-].
  unfold Meeting.removeParticipant. simpl.
  rewrite filter_app_last by done. rewrite filter_absent by done.
  unfold Meeting.set_participants. simpl. by destruct m.
Qed.

Lemma add_then_remove_witness :
  Meeting.removeParticipant
    (Meeting.set_participants (abc 50 None) [ann; bob]) "u2" = abc 50 None.
Proof.
  apply (add_then_remove (abc 50 None) "u2" "Bob" false 1700000000000
           (Meeting.set_participants (abc 50 None) [ann; bob])
           (Meeting.Pushed "u2" "Bob" false));
    reflexivity.
Defined.

Lemma assign_first_find_other uid uid' muted videoOn ps :
  uid' ≠ uid →
  Meeting.find uid' (Meeting.assign_first uid muted videoOn ps) =
  Meeting.find uid' ps.
Proof.
  intros Hne. unfold Meeting.find. induction ps as [|p ps IH]; [done|].
  cbn [Meeting.assign_first]. case_bool_decide as Hp.
  - cbn [List.find]. simpl. by rewrite !bool_decide_eq_false_2 by congruence.
  - cbn [List.find]. destruct (bool_decide (Meeting.userId p = uid')); [done|].
    exact IH.
Qed.

(** X6. [updateParticipant] on a user with an entry assigns the two status
    flags of that entry and nothing else: the entry stored afterwards is the
    one returned; each of its flags holds the value given as the schema's
    Boolean cast makes it (a boolean as it is), or the old value when the
    value given does not cast; its name, join time and host flag are the old
    ones, the list keeps its users in their order, and every other user's
    entry is the one it was. *)
Theorem updateParticipant_writes_two_flags m uid muted videoOn m' p' :
  Meeting.updateParticipant m (Some uid) muted videoOn = inr (m', Some p') →
  Meeting.find uid (Meeting.participants m') = Some p' ∧
  (∃ p, Meeting.find uid (Meeting.participants m) = Some p ∧
        (∀ mu, Meeting.castBoolean muted = Some mu → Meeting.isMuted p' = mu) ∧
        (Meeting.castBoolean muted = None →
         Meeting.isMuted p' = Meeting.isMuted p) ∧
        (∀ vo, Meeting.castBoolean videoOn = Some vo →
           Meeting.isVideoOn p' = vo) ∧
        (Meeting.castBoolean videoOn = None →
         Meeting.isVideoOn p' = Meeting.isVideoOn p) ∧
        Meeting.userId p' = Meeting.userId p ∧
        Meeting.name p' = Meeting.name p ∧
        Meeting.joinedAt p' = Meeting.joinedAt p ∧
        Meeting.isHost p' = Meeting.isHost p) ∧
  (∀ b, muted = JBool b → Meeting.isMuted p' = JBool b) ∧
  (∀ b, videoOn = JBool b → Meeting.isVideoOn p' = JBool b) ∧
  Meeting.userId <$> Meeting.participants m' =
    Meeting.userId <$> Meeting.participants m ∧
  (∀ uid', uid' ≠ uid →
     Meeting.find uid' (Meeting.participants m') =
     Meeting.find uid' (Meeting.participants m)) ∧
  same_but_participants m m'.
Proof.
  unfold Meeting.updateParticipant.
  destruct (Meeting.find uid (Meeting.participants m)) as [p|] eqn:Hp; [|done].
  intros [= <- <-]. simpl. unfold Meeting.set_flag. split_and!; try done.
  - by apply assign_first_find.
  - exists p. split_and!; try done.
    + by intros mu ->.
    + by intros ->.
    + by intros vo ->.
    + by intros ->.
  - by intros b ->.
  - by intros b ->.
  - apply assign_first_userIds.
  - intros uid' Hne. by apply assign_first_find_other.
Qed.

Lemma updateParticipant_writes_two_flags_witness :
  let m := Meeting.set_participants (abc 50 None) [ann; bob] in
  let p' := Meeting.assign bob (JBool true) JUndefined in
  let m' := Meeting.set_participants m [ann; p'] in
  Meeting.find "u2" (Meeting.participants m') = Some p' ∧
  (∃ p, Meeting.find "u2" (Meeting.participants m) = Some p ∧
        (∀ mu, Meeting.castBoolean (JBool true) = Some mu →
           Meeting.isMuted p' = mu) ∧
        (Meeting.castBoolean (JBool true) = None →
         Meeting.isMuted p' = Meeting.isMuted p) ∧
        (∀ vo, Meeting.castBoolean JUndefined = Some vo →
           Meeting.isVideoOn p' = vo) ∧
        (Meeting.castBoolean JUndefined = None →
         Meeting.isVideoOn p' = Meeting.isVideoOn p) ∧
        Meeting.userId p' = Meeting.userId p ∧
        Meeting.name p' = Meeting.name p ∧
        Meeting.joinedAt p' = Meeting.joinedAt p ∧
        Meeting.isHost p' = Meeting.isHost p) ∧
  (∀ b, JBool true = JBool b → Meeting.isMuted p' = JBool b) ∧
  (∀ b, JUndefined = JBool b → Meeting.isVideoOn p' = JBool b) ∧
  Meeting.userId <$> Meeting.participants m' =
    Meeting.userId <$> Meeting.participants m ∧
  (∀ uid', uid' ≠ "u2" →
     Meeting.find uid' (Meeting.participants m') =
     Meeting.find uid' (Meeting.participants m)) ∧
  same_but_participants m m'.
Proof.
  apply (updateParticipant_writes_two_flags
           (Meeting.set_participants (abc 50 None) [ann; bob]) "u2"
           (JBool true) JUndefined).
  reflexivity.
Defined.

(** ** Meeting.js: generating an identifier *)

Lemma charAt_characters i :
  (i < 36)%nat →
  ∃ c, charAt characters i = String c "" ∧ upper_ascii c = c ∧
       in_alphabet (String c "") = true.
Proof.
  intros Hi.
  do 36 (destruct i as [|i];
    [eexists; split; [reflexivity|split; reflexivity]|]). lia.
Qed.

Lemma candidate_spelled n block rest :
  length block = n → candidate n (block ++ rest) = Some (spelled block, rest).
Proof.
  revert block. induction n as [|n IH]; intros [|i block] Hlen; try done.
  cbn [candidate app]. rewrite IH by (simpl in Hlen; lia). done.
Qed.

Lemma candidate_shape n draws meetingId rest :
  Forall (λ i, (i < 36)%nat) draws →
  candidate n draws = Some (meetingId, rest) →
  String.length meetingId = n ∧ toUpperCase meetingId = meetingId ∧
  in_alphabet meetingId = true ∧
  Forall (λ i, (i < 36)%nat) rest ∧ (length rest + n = length draws)%nat.
Proof.
  revert draws meetingId rest.
  induction n as [|n IH]; intros draws meetingId rest Hall.
  - intros [= <- <-]. by split_and!.
  - destruct draws as [|i draws]; [done|]. cbn [candidate].
    destruct (candidate n draws) as [[tail rest']|] eqn:Hc; [|done].
    intros [= <- <-]. apply Forall_cons in Hall as [Hi Hall].
    destruct (IH _ _ _ Hall Hc) as (Hlen & Hup & Halpha & Hrest & Hcount).
    destruct (charAt_characters i Hi) as (c & -> & Hc' & Hin).
    change (String c "" +:+ tail) with (String c tail).
    cbn [String.length toUpperCase length].
    rewrite Hlen, Hup, Hc'. split_and!; [done|done| |done|lia].
    unfold in_alphabet in *. cbn [String.list_ascii_of_string forallb] in *.
    rewrite Halpha. exact Hin.
Qed.

Lemma generate_loop_fresh e d attempts draws meetingId :
  Forall (λ i, (i < 36)%nat) draws →
  generate_loop e d attempts draws = Some (inr meetingId) →
  String.length meetingId = 8%nat ∧ d !! meetingId = None ∧
  toUpperCase meetingId = meetingId ∧ in_alphabet meetingId = true.
Proof.
  revert draws. induction attempts as [|attempts IH]; intros draws Hall; [done|].
  cbn [generate_loop].
  destruct (candidate 8 draws) as [[cand rest]|] eqn:Hc; [|done].
  destruct (candidate_shape _ _ _ _ Hall Hc) as (Hlen & Hup & Halpha & Hrest & _).
  destruct (findOne_rejects e); [done|].
  destruct (d !! cand) eqn:Hd.
  - by apply IH.
  - by intros [= <-].
Qed.

(** X7. An identifier that [generateMeetingId] returns has eight characters,
    each of them drawn from the alphabet A-Z0-9, so it is its own upper-case
    form and has a length the schema accepts, and no meeting of the
    collection, active or not, bears it. *)
Theorem generateMeetingId_fresh e d draws meetingId :
  Forall (λ i, (i < 36)%nat) draws →
  generateMeetingId e d draws = Some (inr meetingId) →
  String.length meetingId = 8%nat ∧
  in_alphabet meetingId = true ∧
  (6 ≤ String.length meetingId ≤ 10)%nat ∧
  toUpperCase meetingId = meetingId ∧
  d !! meetingId = None.
Proof.
  intros Hall Hgen.
  destruct (generate_loop_fresh _ _ _ _ _ Hall Hgen)
    as (Hlen & Hnew & Hup & Halpha).
  split_and!; try done; lia.
Qed.

Lemma generateMeetingId_fresh_witness :
  String.length "ZYX01298" = 8%nat ∧
  in_alphabet "ZYX01298" = true ∧
  (6 ≤ String.length "ZYX01298" ≤ 10)%nat ∧
  toUpperCase "ZYX01298" = "ZYX01298" ∧
  db (start 2 None) !! "ZYX01298" = None.
Proof.
  apply (generateMeetingId_fresh e0 (db (start 2 None))
           (draws_for_ABC12345 ++ fresh_block)).
  - unfold draws_for_ABC12345, fresh_block. simpl.
    repeat (apply Forall_cons; split; [lia|]). apply Forall_nil. done.
  - vm_compute. reflexivity.
Defined.

Lemma generate_loop_returns e d blocks w rest attempts :
  findOne_rejects e = false →
  Forall (λ b, length b = 8%nat ∧ is_Some (d !! spelled b)) blocks →
  length w = 8%nat →
  d !! spelled w = None →
  (length blocks < attempts)%nat →
  generate_loop e d attempts (concat blocks ++ w ++ rest) =
  Some (inr (spelled w)).
Proof.
  intros Hfind Hblocks Hw Hnew. revert attempts.
  induction Hblocks as [|b blocks [Hb [m Hm]] _ IH]; intros attempts Hfuel.
  - destruct attempts as [|attempts]; [simpl in Hfuel; lia|].
    cbn [concat app generate_loop]. rewrite candidate_spelled by done.
    by rewrite Hfind, Hnew.
  - destruct attempts as [|attempts]; [simpl in Hfuel; lia|].
    cbn [concat generate_loop]. rewrite <- app_assoc.
    rewrite candidate_spelled by done. rewrite Hfind, Hm.
    apply IH. simpl in Hfuel. lia.
Qed.

(** X8. [generateMeetingId] returns as soon as a candidate is unused: when the
    draws first spell identifiers that are all taken and then one that is
    not, and the lookups answer, the result is that identifier, however many
    were taken before it. *)
Theorem generateMeetingId_returns e d blocks w rest :
  findOne_rejects e = false →
  Forall (λ b, length b = 8%nat ∧ is_Some (d !! spelled b)) blocks →
  length w = 8%nat →
  d !! spelled w = None →
  generateMeetingId e d (concat blocks ++ w ++ rest) = Some (inr (spelled w)).
Proof.
  intros Hfind Hblocks Hw Hnew. unfold generateMeetingId.
  apply generate_loop_returns; try done.
  rewrite !length_app, Hw.
  assert (length blocks ≤ length (concat blocks))%nat; [|lia].
  clear -Hblocks. induction Hblocks as [|b blocks [Hb _] _ IH]; [done|].
  simpl. rewrite length_app. lia.
Qed.

Lemma generateMeetingId_returns_witness :
  generateMeetingId e0 (db (start 2 None))
    (concat [draws_for_ABC12345] ++ fresh_block ++ [])
  = Some (inr (spelled fresh_block)).
Proof.
  apply (generateMeetingId_returns e0 (db (start 2 None))
           [draws_for_ABC12345] fresh_block []).
  - reflexivity.
  - apply Forall_cons. split; [|apply Forall_nil; done].
    split; [reflexivity|]. vm_compute. eexists. reflexivity.
  - reflexivity.
  - vm_compute. reflexivity.
Defined.

(** ** Leaving and disconnecting *)

Lemma room_rooms_leave st sid m d s r :
  room {| db := d; sockets := s; rooms := rooms_leave sid m (rooms st) |} r =
  if decide (m = r) then room st r ∖ {[sid]} else room st r.
Proof. unfold room. simpl. apply rooms_leave_lookup. Qed.

Lemma room_leave_all st sid d s r :
  room {| db := d; sockets := s;
          rooms := filter (λ kv, kv.2 ≠ ∅) ((λ x, x ∖ {[sid]}) <$> rooms st) |} r
  = room st r ∖ {[sid]}.
Proof. unfold room. simpl. apply leave_all_lookup. Qed.

Lemma difference_twice (X : gset string) sid : X ∖ {[sid]} ∖ {[sid]} = X ∖ {[sid]}.
Proof. set_solver. Qed.

Lemma leave_meeting_run sid sock st m :
  currentMeeting sock = JStr m → m ≠ "" →
  run (leave_meeting sid sock) st =
    Ok tt
      {| db := db st;
         sockets := <[sid := {| userId := userId sock; userName := userName sock;
                                isAuthenticated := isAuthenticated sock;
                                currentMeeting := JNull |}]> (sockets st);
         rooms := rooms_leave sid m (rooms st) |}
      [{| recipients := room st m ∖ {[sid]};
          payload := UserDisconnected (userId sock) (userName sock) |}].
Proof.
  intros Hcur Hne. unfold leave_meeting. rewrite Hcur. simpl.
  rewrite bool_decide_eq_true_2 by done. unfold_M. simpl.
  rewrite room_rooms_leave, decide_True by done.
  by rewrite difference_twice.
Qed.

(** X9. A [leave-meeting] from a socket whose current meeting is [m] takes the
    socket out of room [m] and out of no other room, moves nobody else, sets
    its current meeting to [null], tells the members that remain in room [m]
    with one [user-disconnected] event, and does not touch the meetings
    collection: the persisted entry of the user stays. *)
Theorem leave_meeting_effect sid sock st m :
  currentMeeting sock = JStr m → m ≠ "" →
  let r := run (leave_meeting sid sock) st in
  returned r = true ∧
  emitted r =
    [{| recipients := room st m ∖ {[sid]};
        payload := UserDisconnected (userId sock) (userName sock) |}] ∧
  room (final r) m = room st m ∖ {[sid]} ∧
  (∀ r', r' ≠ m → room (final r) r' = room st r') ∧
  currentMeeting <$> sockets (final r) !! sid = Some JNull ∧
  (∀ sid', sid' ≠ sid → sockets (final r) !! sid' = sockets st !! sid') ∧
  db (final r) = db st.
Proof.
  intros Hcur Hne r. subst r. rewrite (leave_meeting_run sid sock st m) by done.
  simpl. split_and!; try done.
  - by rewrite room_rooms_leave, decide_True.
  - intros r' Hr'. by rewrite room_rooms_leave, decide_False.
  - by rewrite lookup_insert_eq.
  - intros sid' Hsid. by rewrite lookup_insert_ne.
Qed.

Lemma leave_meeting_effect_witness :
  let r := run (leave_meeting "s2" bob_socket) with_bob in
  returned r = true ∧
  emitted r =
    [{| recipients := room with_bob "ABC12345" ∖ {["s2"]};
        payload := UserDisconnected (userId bob_socket) (userName bob_socket) |}] ∧
  room (final r) "ABC12345" = room with_bob "ABC12345" ∖ {["s2"]} ∧
  (∀ r', r' ≠ "ABC12345" → room (final r) r' = room with_bob r') ∧
  currentMeeting <$> sockets (final r) !! "s2" = Some JNull ∧
  (∀ sid', sid' ≠ "s2" → sockets (final r) !! sid' = sockets with_bob !! sid') ∧
  db (final r) = db with_bob.
Proof.
  apply (leave_meeting_effect "s2" bob_socket with_bob "ABC12345").
  - reflexivity.
  - discriminate.
Defined.

(** X10. After a [leave-meeting] nothing more is announced for that socket: a
    second [leave-meeting] does nothing at all, and the [disconnect] that
    follows emits no second [user-disconnected]. *)
Theorem nothing_announced_after_leave sid sock st m :
  currentMeeting sock = JStr m → m ≠ "" →
  let st' := final (run (leave_meeting sid sock) st) in
  ∃ sock',
    sockets st' !! sid = Some sock' ∧
    run (leave_meeting sid sock') st' = Ok tt st' [] ∧
    emitted (run (disconnect sid sock') st') = [] ∧
    returned (run (disconnect sid sock') st') = true.
Proof.
  intros Hcur Hne st'. subst st'.
  rewrite (leave_meeting_run sid sock st m) by done. simpl.
  eexists. split; [apply lookup_insert_eq|]. by split_and!.
Qed.

Lemma nothing_announced_after_leave_witness :
  let st' := final (run (leave_meeting "s2" bob_socket) with_bob) in
  ∃ sock',
    sockets st' !! "s2" = Some sock' ∧
    run (leave_meeting "s2" sock') st' = Ok tt st' [] ∧
    emitted (run (disconnect "s2" sock') st') = [] ∧
    returned (run (disconnect "s2" sock') st') = true.
Proof.
  apply (nothing_announced_after_leave "s2" bob_socket with_bob "ABC12345").
  - reflexivity.
  - discriminate.
Defined.

Lemma room_of_leave_all st sid d s v :
  room_of {| db := d; sockets := s;
             rooms := filter (λ kv, kv.2 ≠ ∅) ((λ x, x ∖ {[sid]}) <$> rooms st) |}
          v ∖ {[sid]}
  = room_of st v ∖ {[sid]}.
Proof.
  destruct v; simpl; try done.
  by rewrite room_leave_all, difference_twice.
Qed.

(** X11. A disconnect removes the socket from the server for every payload and
    state: the socket object is gone, it is a member of no room any more, all
    other members stay where they were, the meetings collection is untouched,
    and the members left in its current meeting's room, if it had one, get
    one [user-disconnected] event; otherwise nothing is sent. *)
Theorem disconnect_effect sid sock st :
  let r := run (disconnect sid sock) st in
  returned r = true ∧
  sockets (final r) = delete sid (sockets st) ∧
  (∀ r', room (final r) r' = room st r' ∖ {[sid]}) ∧
  db (final r) = db st ∧
  emitted r =
    if truthy (currentMeeting sock)
    then [{| recipients := room_of st (currentMeeting sock) ∖ {[sid]};
             payload := UserDisconnected (userId sock) (userName sock) |}]
    else [].
Proof.
  unfold disconnect. unfold_M.
  destruct (truthy (currentMeeting sock)); simpl.
  - split_and!; try done.
    + intros r'. apply room_leave_all.
    + by rewrite room_of_leave_all.
  - split_and!; try done. intros r'. apply room_leave_all.
Qed.

(** ** Rooms and the sockets in them *)

Lemma rooms_live_same st st' :
  sockets st' = sockets st → rooms st' = rooms st →
  rooms_live st → rooms_live st'.
Proof.
  intros Hs Hr Hlive r x. unfold room. rewrite Hs, Hr. apply Hlive.
Qed.

Lemma rooms_live_join st st' sid sock' mid :
  sockets st' = <[sid := sock']> (sockets st) →
  rooms st' = <[mid := {[sid]} ∪ room st mid]> (rooms st) →
  rooms_live st → rooms_live st'.
Proof.
  intros Hs Hr Hlive r x. unfold room. rewrite Hs, Hr, lookup_insert.
  destruct (decide (x = sid)) as [->|Hx].
  { intros _. rewrite lookup_insert_eq. by eexists. }
  rewrite lookup_insert_ne by done.
  case_decide; [|by apply Hlive]. subst. simpl.
  intros [Hin|Hin]%elem_of_union; [|by eapply Hlive].
  by apply elem_of_singleton in Hin.
Qed.

Lemma rooms_live_handler e sid sock i st :
  rooms_live st → rooms_live (final (run (handler e sid sock i) st)).
Proof.
  intros Hlive. destruct i; simpl.
  - destruct (join_meeting_effect e sid sock data st) as [_ [[Hs Hr]|Hjoin]].
    { by eapply rooms_live_same. }
    destruct Hjoin as (mid & meeting & _ & Hs & Hr).
    by eapply rooms_live_join.
  - by rewrite webrtc_offer_state.
  - by rewrite webrtc_answer_state.
  - by rewrite webrtc_ice_candidate_state.
  - by rewrite send_message_state.
  - destruct (update_participant_status_live e sid sock data st) as (?&?&?).
    by eapply rooms_live_same.
  - by rewrite start_screen_share_state.
  - by rewrite stop_screen_share_state.
  - by rewrite mute_participant_state.
  - unfold leave_meeting. destruct (truthy (currentMeeting sock)); [|done].
    unfold_M. destruct (currentMeeting sock) as [| | | |m|]; simpl.
    all: intros r x Hin.
    all: try (rewrite room_rooms_leave in Hin).
    all: simpl; destruct (decide (x = sid)) as [->|Hx];
      [rewrite lookup_insert_eq; by eexists|].
    all: rewrite lookup_insert_ne by done; apply (Hlive r).
    all: try done.
    case_decide; [|done]. by apply elem_of_difference in Hin as [? _].
  - unfold disconnect. unfold_M.
    assert (rooms_live
              {| db := db st; sockets := delete sid (sockets st);
                 rooms := filter (λ kv, kv.2 ≠ ∅)
                            ((λ x, x ∖ {[sid]}) <$> rooms st) |}) as Hgoal.
    { intros r x. rewrite room_leave_all. simpl.
      intros [Hin Hx]%elem_of_difference.
      rewrite lookup_delete_ne by set_solver. by eapply Hlive. }
    by destruct (truthy (currentMeeting sock)).
Qed.

(** X12. In every reachable state each member of each socket.io room is a
    connected socket: a disconnect leaves no trace of the socket in any room,
    so no broadcast is ever addressed to a connection that is gone. *)
Theorem rooms_hold_connected_sockets st r x :
  reachable st → x ∈ room st r → is_Some (sockets st !! x).
Proof.
  intros Hreach. revert r x. change (rooms_live st).
  induction Hreach as [d Hd|st sid c _ IH Hfresh|st e sid sock i _ IH Hsock
                      |st e uid nm meetingId body _ IH|st e uid nm meetingId _ IH].
  - intros r x. unfold room. simpl. rewrite lookup_empty. simpl. set_solver.
  - eapply (rooms_live_join st _ sid (authenticate c) sid); [done|done|done].
  - by apply rooms_live_handler.
  - destruct (post_join_live e uid nm meetingId body st) as (?&?&?).
    by eapply rooms_live_same.
  - destruct (post_leave_live e uid nm meetingId st) as (?&?&?).
    by eapply rooms_live_same.
Qed.

Lemma rooms_hold_connected_sockets_witness :
  is_Some (sockets with_bob !! "s2").
Proof.
  apply (rooms_hold_connected_sockets with_bob "ABC12345" "s2").
  - apply reachable_with_bob.
  - vm_compute. reflexivity.
Defined.

(** X13. A [join-meeting] takes nobody out of any room, the joiner included,
    and changes no other socket's record: a socket that joins a second
    meeting stays a member of the first one's room. *)
Theorem join_meeting_moves_nobody_out e sid sock data st :
  let st' := final (run (join_meeting e sid sock data) st) in
  (∀ r x, x ∈ room st r → x ∈ room st' r) ∧
  (∀ sid', sid' ≠ sid → sockets st' !! sid' = sockets st !! sid').
Proof.
  destruct (join_meeting_effect e sid sock data st) as [_ [[Hs Hr]|Hjoin]];
    simpl.
  - split; [|by rewrite Hs]. intros r x. unfold room. by rewrite Hr.
  - destruct Hjoin as (mid & meeting & _ & Hs & Hr). split.
    + intros r x. unfold room. rewrite Hr, lookup_insert.
      case_decide; [|done]. subst. simpl. apply elem_of_union_r.
    + intros sid' Hsid. rewrite Hs. by apply lookup_insert_ne.
Qed.

(** ** More on joining *)

Lemma room_join_except st sid m d s :
  room {| db := d; sockets := s;
          rooms := <[m := {[sid]} ∪ room st m]> (rooms st) |} m ∖ {[sid]}
  = room st m ∖ {[sid]}.
Proof.
  unfold room at 1. simpl. rewrite lookup_insert_eq. simpl.
  apply room_after_join.
Qed.

(** X14. Whatever a [join-meeting] sends goes to the joiner itself or to the
    other members of the room named by the payload's [meetingId] as it is
    spelled there: sockets in other rooms, among them a room whose name
    differs only in letter case, receive nothing. *)
Theorem join_meeting_reaches_only_its_room e sid sock data st em :
  em ∈ emitted (run (join_meeting e sid sock data) st) →
  recipients em = {[sid]} ∨
  ∃ m, destructure data "meetingId" = inr (JStr m) ∧
       recipients em = room st m ∖ {[sid]}.
Proof.
  unfold join_meeting, Meeting.isUserHost, string_receiver. unfold_M.
  step_cases; intros Hin;
    repeat (apply elem_of_cons in Hin as [->|Hin]);
    try (by apply elem_of_nil in Hin);
    try (left; reflexivity);
    right; eexists; (split; [reflexivity|]); simpl;
    unfold room; simpl; rewrite lookup_insert_eq; simpl; set_solver.
Qed.

Lemma join_meeting_reaches_only_its_room_witness :
  recipients {| recipients := {["s1"]};
                payload := UserConnected "u2" "Bob" "s2" false |} = {["s2"]} ∨
  ∃ m, destructure join_ABC "meetingId" = inr (JStr m) ∧
       recipients {| recipients := {["s1"]};
                     payload := UserConnected "u2" "Bob" "s2" false |}
       = room (connection "s2" Bob (enter "s1" Ann join_ABC (start 50 None))) m
         ∖ {["s2"]}.
Proof.
  apply (join_meeting_reaches_only_its_room e0 "s2" (authenticate Bob) join_ABC
           (connection "s2" Bob (enter "s1" Ann join_ABC (start 50 None)))).
  vm_compute. apply elem_of_cons. left. reflexivity.
Defined.

(** X15. A guest's [join-meeting] to an active meeting puts the guest in the
    room, records the meeting as its current one and announces
    [guest-<connection id>] to the members already there; the guest itself is
    answered "Failed to join meeting" and gets no [meeting-joined], because
    the host test raises on its missing user identifier. *)
Theorem guest_join_is_registered_and_refused st e sid sock data m meeting :
  isAuthenticated sock = false →
  userId sock = None →
  destructure data "meetingId" = inr (JStr m) →
  findOne_rejects e = false →
  db st !! toUpperCase m = Some meeting →
  Meeting.isActive meeting = true →
  run (join_meeting e sid sock data) st =
    Ok tt
      {| db := db st;
         sockets := <[sid := {| userId := None; userName := userName sock;
                                isAuthenticated := false;
                                currentMeeting := JStr m |}]> (sockets st);
         rooms := <[m := {[sid]} ∪ room st m]> (rooms st) |}
      [{| recipients := room st m ∖ {[sid]};
          payload := UserConnected ("guest-" +:+ sid) (userName sock) sid true |};
       {| recipients := {[sid]};
          payload := EvError "Failed to join meeting" |}].
Proof.
  intros Hguest Huid Hdata Hfind Hdb Hactive.
  unfold join_meeting, Meeting.isUserHost, userId_or_guest. unfold_M.
  rewrite Hdata. simpl. rewrite Hfind, Hdb, Hactive, Hguest, Huid. simpl.
  by rewrite room_join_except.
Qed.

Lemma guest_join_is_registered_and_refused_witness :
  run (join_meeting e0 "s2" (authenticate NoToken) join_ABC)
      (connection "s2" NoToken locked) =
    Ok tt
      {| db := db (connection "s2" NoToken locked);
         sockets := <["s2" := {| userId := None;
                                 userName := userName (authenticate NoToken);
                                 isAuthenticated := false;
                                 currentMeeting := JStr "ABC12345" |}]>
                      (sockets (connection "s2" NoToken locked));
         rooms := <["ABC12345" :=
                      {["s2"]} ∪ room (connection "s2" NoToken locked) "ABC12345"]>
                    (rooms (connection "s2" NoToken locked)) |}
      [{| recipients := room (connection "s2" NoToken locked) "ABC12345"
                          ∖ {["s2"]};
          payload := UserConnected ("guest-" +:+ "s2")
                       (userName (authenticate NoToken)) "s2" true |};
       {| recipients := {["s2"]};
          payload := EvError "Failed to join meeting" |}].
Proof.
  apply (guest_join_is_registered_and_refused (connection "s2" NoToken locked)
           e0 "s2" (authenticate NoToken) join_ABC "ABC12345"
           (abc 50 (Some "secret"))); reflexivity.
Defined.

(** X16. A [join-meeting] for an identifier that, upper-cased, names no
    meeting or names an inactive one is answered "Meeting not found" to the
    sender alone and changes nothing: nobody is registered, nothing is
    announced. *)
Theorem join_unknown_or_ended_meeting st e sid sock data m :
  destructure data "meetingId" = inr (JStr m) →
  findOne_rejects e = false →
  (db st !! toUpperCase m = None ∨
   ∃ meeting, db st !! toUpperCase m = Some meeting ∧
              Meeting.isActive meeting = false) →
  run (join_meeting e sid sock data) st =
    Ok tt st [{| recipients := {[sid]};
                 payload := EvError "Meeting not found" |}].
Proof.
  intros Hdata Hfind Hdb. unfold join_meeting. unfold_M.
  rewrite Hdata. simpl. rewrite Hfind.
  destruct Hdb as [->|(meeting & -> & ->)]; done.
Qed.

Lemma join_unknown_or_ended_meeting_witness :
  run (join_meeting e0 "s1" ann_socket join_other) with_bob =
    Ok tt with_bob [{| recipients := {["s1"]};
                       payload := EvError "Meeting not found" |}].
Proof.
  apply (join_unknown_or_ended_meeting with_bob e0 "s1" ann_socket join_other
           "XYZ98765").
  - reflexivity.
  - reflexivity.
  - left. vm_compute. reflexivity.
Defined.

(** X17. For an authenticated session a [join-meeting] is all or nothing,
    whatever the payload and whatever the persistence layer answers: either
    the server state is exactly what it was and the sender alone gets one
    [error] event, or the sender is in the room, has the meeting as its
    current one and gets the [meeting-joined] reply. A rejected lookup or
    save leaves no partial registration. *)
Theorem authenticated_join_all_or_nothing e sid sock data st uid :
  isAuthenticated sock = true →
  userId sock = Some uid →
  let r := run (join_meeting e sid sock data) st in
  (final r = st ∧
   ∃ msg, emitted r = [{| recipients := {[sid]}; payload := EvError msg |}]) ∨
  (∃ m participants isHost,
     delivered sid (MeetingJoined m participants isHost) (emitted r) ∧
     sid ∈ room (final r) m ∧
     currentMeeting <$> sockets (final r) !! sid = Some (JStr m)).
Proof.
  intros Hauth Huid. unfold join_meeting, Meeting.isUserHost. unfold_M.
  rewrite Hauth, Huid.
  step_cases; try (left; split; [done|]; by eexists).
  all: right; eexists _, _, _; split_and!.
  all: try (eexists; split;
            [apply elem_of_cons; right; apply list_elem_of_singleton; done|];
            split; [simpl; by apply elem_of_singleton|done]).
  all: try (unfold room; simpl; rewrite lookup_insert_eq; simpl; set_solver).
  all: by rewrite lookup_insert_eq.
Qed.

Lemma authenticated_join_all_or_nothing_witness :
  let r := run (join_meeting
                  {| findOne_rejects := false; save_rejects := true;
                     Date_now := 0; new_Date := 0 |}
                  "s3" (authenticate Cy) join_ABC) full_house in
  (final r = full_house ∧
   ∃ msg, emitted r = [{| recipients := {["s3"]}; payload := EvError msg |}]) ∨
  (∃ m participants isHost,
     delivered "s3" (MeetingJoined m participants isHost) (emitted r) ∧
     "s3" ∈ room (final r) m ∧
     currentMeeting <$> sockets (final r) !! "s3" = Some (JStr m)).
Proof.
  apply (authenticated_join_all_or_nothing
           {| findOne_rejects := false; save_rejects := true;
              Date_now := 0; new_Date := 0 |}
           "s3" (authenticate Cy) join_ABC full_house "u3"); reflexivity.
Defined.

(** ** Chat, status and screen sharing at the edges *)

Lemma in_meeting_check sock m :
  currentMeeting sock = JStr m → m ≠ "" →
  not_in_meeting sock (JStr m) = false.
Proof.
  intros Hcur Hne. unfold not_in_meeting. rewrite Hcur. simpl.
  by rewrite !bool_decide_eq_true_2.
Qed.

(** X18. A [send-message] from a member whose [message] is not a string
    (missing, a number, an object) is answered "Failed to send message" to
    the sender alone: nothing reaches the room and nothing changes. *)
Theorem send_message_needs_a_string st e sid sock data m msg :
  currentMeeting sock = JStr m → m ≠ "" →
  destructure data "meetingId" = inr (JStr m) →
  destructure data "message" = inr msg →
  (∀ text, msg ≠ JStr text) →
  run (send_message e sid sock data) st =
    Ok tt st [{| recipients := {[sid]};
                 payload := EvError "Failed to send message" |}].
Proof.
  intros Hcur Hne Hroom Hmsg Hnot.
  assert (∃ ty, destructure data "type" = inr ty) as [ty Hty].
  { destruct data; simpl in *; try done; eauto. }
  unfold send_message. unfold_M.
  rewrite Hroom, Hmsg, Hty, (in_meeting_check sock m) by done. simpl.
  destruct msg; try done. by destruct (Hnot s).
Qed.

Lemma send_message_needs_a_string_witness :
  run (send_message e0 "s1" ann_socket not_a_string) with_bob =
    Ok tt with_bob [{| recipients := {["s1"]};
                       payload := EvError "Failed to send message" |}].
Proof.
  apply (send_message_needs_a_string with_bob e0 "s1" ann_socket not_a_string
           "ABC12345" (JNum 7)); try reflexivity; discriminate.
Defined.

(** X19. The chat relay never reads the meetings collection: two server
    states with the same rooms give the same events to the same sockets, so
    members keep chatting in the room of a meeting that has ended or been
    deleted. *)
Theorem send_message_ignores_the_collection e sid sock data st1 st2 :
  rooms st1 = rooms st2 →
  emitted (run (send_message e sid sock data) st1) =
  emitted (run (send_message e sid sock data) st2).
Proof.
  intros Hrooms. unfold send_message. unfold_M.
  step_cases; try done.
  all: unfold room_of, room; by rewrite ?Hrooms.
Qed.

Lemma send_message_ignores_the_collection_witness :
  emitted (run (send_message e0 "s1" ann_socket hello) with_bob) =
  emitted (run (send_message e0 "s1" ann_socket hello)
             (delete_meeting e0 false "u1" "ABC12345" with_bob).1.2).
Proof.
  apply (send_message_ignores_the_collection e0 "s1" ann_socket hello with_bob
           (delete_meeting e0 false "u1" "ABC12345" with_bob).1.2).
  reflexivity.
Defined.

(** X20. An [update-participant-status] from a member of a meeting that is
    gone from the collection or is inactive is dropped without a word: no
    broadcast, no error event, no change. *)
Theorem update_status_of_ended_meeting_is_dropped st e sid sock data m :
  currentMeeting sock = JStr m → m ≠ "" →
  destructure data "meetingId" = inr (JStr m) →
  findOne_rejects e = false →
  (db st !! toUpperCase m = None ∨
   ∃ meeting, db st !! toUpperCase m = Some meeting ∧
              Meeting.isActive meeting = false) →
  run (update_participant_status e sid sock data) st = Ok tt st [].
Proof.
  intros Hcur Hne Hroom Hfind Hdb.
  assert (∃ a b, destructure data "isMuted" = inr a ∧
                 destructure data "isVideoOn" = inr b) as (a & b & Ha & Hb).
  { destruct data; simpl in *; try done; eauto. }
  unfold update_participant_status. unfold_M.
  rewrite Hroom, Ha, Hb, (in_meeting_check sock m) by done. simpl.
  rewrite Hfind. destruct Hdb as [->|(meeting & -> & ->)]; done.
Qed.

Lemma update_status_of_ended_meeting_is_dropped_witness :
  run (update_participant_status e0 "s2" bob_socket muted_only)
      (delete_meeting e0 false "u1" "ABC12345" with_bob).1.2
  = Ok tt (delete_meeting e0 false "u1" "ABC12345" with_bob).1.2 [].
Proof.
  apply (update_status_of_ended_meeting_is_dropped
           (delete_meeting e0 false "u1" "ABC12345" with_bob).1.2
           e0 "s2" bob_socket muted_only "ABC12345");
    try reflexivity; try discriminate.
  left. vm_compute. reflexivity.
Defined.

(** X21. Screen sharing is announced to the other members only, and only for
    the sender's current meeting: a [start-screen-share] or
    [stop-screen-share] naming it sends one event to the room without the
    sender; one naming anything else is ignored in silence, with no [error]
    event. The server state is never changed. *)
Theorem screen_share_effect st sid sock data m roomId :
  currentMeeting sock = JStr m →
  destructure data "meetingId" = inr roomId →
  (roomId = JStr m →
   run (start_screen_share sid sock data) st =
     Ok tt st [{| recipients := room st m ∖ {[sid]};
                  payload := UserStartedScreenShare (userId sock)
                               (userName sock) |}] ∧
   run (stop_screen_share sid sock data) st =
     Ok tt st [{| recipients := room st m ∖ {[sid]};
                  payload := UserStoppedScreenShare (userId sock)
                               (userName sock) |}]) ∧
  (roomId ≠ JStr m →
   run (start_screen_share sid sock data) st = Ok tt st [] ∧
   run (stop_screen_share sid sock data) st = Ok tt st []).
Proof.
  intros Hcur Hdata. unfold start_screen_share, stop_screen_share. unfold_M.
  rewrite Hdata, Hcur. simpl. split.
  - intros ->. simpl. by rewrite bool_decide_eq_true_2.
  - intros Hother. destruct roomId; simpl; try done.
    rewrite bool_decide_eq_false_2; [done|]. congruence.
Qed.

Lemma screen_share_effect_witness :
  (JStr "ABC12345" = JStr "ABC12345" →
   run (start_screen_share "s1" ann_socket screen_ABC) with_bob =
     Ok tt with_bob
       [{| recipients := room with_bob "ABC12345" ∖ {["s1"]};
           payload := UserStartedScreenShare (userId ann_socket)
                        (userName ann_socket) |}] ∧
   run (stop_screen_share "s1" ann_socket screen_ABC) with_bob =
     Ok tt with_bob
       [{| recipients := room with_bob "ABC12345" ∖ {["s1"]};
           payload := UserStoppedScreenShare (userId ann_socket)
                        (userName ann_socket) |}]) ∧
  (JStr "ABC12345" ≠ JStr "ABC12345" →
   run (start_screen_share "s1" ann_socket screen_ABC) with_bob =
     Ok tt with_bob [] ∧
   run (stop_screen_share "s1" ann_socket screen_ABC) with_bob =
     Ok tt with_bob []).
Proof.
  apply (screen_share_effect with_bob "s1" ann_socket screen_ABC "ABC12345"
           (JStr "ABC12345")); reflexivity.
Defined.

Lemma mute_participant_authenticated_witness :
  run (mute_participant e0 "s1" ann_socket mute_bob) with_bob =
    Ok tt with_bob
      [if bool_decide (Meeting.hostId
                         (Meeting.set_participants (abc 50 None) [ann; bob])
                       = "u1")
       then {| recipients := room with_bob "ABC12345";
               payload := MuteRequest (JStr "u2") true |}
       else {| recipients := {["s1"]};
               payload := EvError "Not authorized to mute participants" |}].
Proof.
  apply (mute_participant_authenticated with_bob e0 "s1" ann_socket mute_bob
           "ABC12345" (JStr "u2") "u1"
           (Meeting.set_participants (abc 50 None) [ann; bob]));
    reflexivity.
Defined.

Lemma error_only_to_sender_witness :
  recipients {| recipients := {["s1"]};
                payload := EvError "Failed to send message" |} = {["s1"]}.
Proof.
  apply (error_only_to_sender e0 "s1" ann_socket (SendMessage not_a_string)
           with_bob _ "Failed to send message").
  - vm_compute. apply elem_of_cons. left. reflexivity.
  - reflexivity.
Defined.

(** ** What the requests do to the collection *)

Lemma leave_meeting_db sid sock st :
  db (final (run (leave_meeting sid sock) st)) = db st.
Proof.
  unfold leave_meeting. destruct (truthy (currentMeeting sock)); [|done].
  unfold_M. by destruct (currentMeeting sock).
Qed.

Lemma disconnect_db sid sock st :
  db (final (run (disconnect sid sock) st)) = db st.
Proof.
  unfold disconnect. unfold_M. by destruct (truthy (currentMeeting sock)).
Qed.

Lemma db_same_refl d : db_same_but_participants d d.
Proof.
  intros k. destruct (d !! k) as [m|]; [|done].
  unfold same_but_participants. by destruct m.
Qed.

Lemma db_same_save d k m ps :
  db_valid d → d !! k = Some m →
  db_same_but_participants d
    (<[Meeting.meetingId (Meeting.set_participants m ps) :=
         Meeting.set_participants m ps]> d).
Proof.
  intros Hd Hk k'. simpl. destruct (Hd _ _ Hk) as [Hid _]. rewrite Hid.
  rewrite lookup_insert. case_decide.
  - subst. by rewrite Hk.
  - destruct (d !! k') as [m'|]; [|done].
    unfold same_but_participants. by destruct m'.
Qed.

(** X25. No socket event and neither of the two REST calls on the
    participant list creates or removes a meeting, and of the paths that
    [meetingSchema] declares none but [participants] is written: identifier,
    host, title, description, activity, creation and expiry dates, capacity,
    password and settings stay as stored. (The [updatedAt] stamp that
    Mongoose renews by itself on a save is not among the declared paths and
    is not part of [Meeting.t].) *)
Theorem requests_write_participants_only e rq st :
  db_valid (db st) →
  db_same_but_participants (db st) (db (serve e rq st)).
Proof.
  intros Hd. destruct rq as [sid sock i|uid nm meetingId body|uid nm meetingId];
    simpl.
  - destruct i; simpl;
      rewrite ?webrtc_offer_state, ?webrtc_answer_state,
        ?webrtc_ice_candidate_state, ?send_message_state,
        ?start_screen_share_state, ?stop_screen_share_state,
        ?mute_participant_state, ?leave_meeting_db, ?disconnect_db;
      try apply db_same_refl.
    + destruct (join_meeting_db e sid sock data st) as [->|Hpush];
        [apply db_same_refl|].
      destruct Hpush as (meeting & uid & _ & _ & [k Hk] & _ & ->).
      by eapply db_same_save.
    + unfold update_participant_status, Meeting.updateParticipant. unfold_M.
      step_cases; try apply db_same_refl.
      rewrite loaded_set_participants. by eapply db_same_save.
  - unfold post_join, Meeting.addParticipant. unfold_M.
    step_cases; try apply db_same_refl. all: by eapply db_same_save.
  - unfold post_leave, Meeting.removeParticipant. unfold_M.
    step_cases; try apply db_same_refl. all: by eapply db_same_save.
Qed.

Lemma requests_write_participants_only_witness :
  db_same_but_participants (db full_house)
    (db (serve e0 (Event "s3" (authenticate Cy) (JoinMeeting join_ABC))
           full_house)).
Proof.
  apply (requests_write_participants_only e0
           (Event "s3" (authenticate Cy) (JoinMeeting join_ABC)) full_house).
  destruct (reachable_inv full_house reachable_full_house) as [Hvalid _].
  exact Hvalid.
Defined.

Lemma unique_filter uid ps :
  NoDup (Meeting.userId <$> ps) →
  NoDup (Meeting.userId <$>
           List.filter (λ p, bool_decide (Meeting.userId p ≠ uid)) ps).
Proof.
  induction ps as [|p ps IH]; [done|]. cbn [List.filter fmap list_fmap].
  intros [Hp Hps]%NoDup_cons. case_bool_decide; [|by apply IH].
  cbn [fmap list_fmap]. apply NoDup_cons. split; [|by apply IH].
  intros Hin. apply Hp.
  apply list_elem_of_fmap in Hin as (q & Hq & Hin).
  apply list_elem_of_fmap. exists q. split; [done|].
  apply list_elem_of_In in Hin. apply List.filter_In in Hin as [Hin _].
  by apply list_elem_of_In.
Qed.

(** X26. No request ever gives a user a second persisted entry in a meeting:
    if user identifiers are unique in every participant list before a socket
    event or REST call, they are unique after it. *)
Theorem requests_keep_users_unique e rq st :
  db_unique (db st) → db_unique (db (serve e rq st)).
Proof.
  intros Hd. destruct rq as [sid sock i|uid nm meetingId body|uid nm meetingId];
    simpl.
  - destruct i; simpl;
      rewrite ?webrtc_offer_state, ?webrtc_answer_state,
        ?webrtc_ice_candidate_state, ?send_message_state,
        ?start_screen_share_state, ?stop_screen_share_state,
        ?mute_participant_state, ?leave_meeting_db, ?disconnect_db;
      try done.
    + by apply join_meeting_keeps_users_unique.
    + unfold update_participant_status, Meeting.updateParticipant. unfold_M.
      step_cases; try done.
      apply db_unique_insert; [done|]. unfold unique_users.
      rewrite loaded_set_participants. simpl.
      rewrite <- list_fmap_compose.
      change (Meeting.userId ∘ Meeting.loaded_entry) with Meeting.userId.
      rewrite assign_first_userIds. by eapply Hd.
  - by apply post_join_keeps_users_unique.
  - unfold post_leave, Meeting.removeParticipant. unfold_M.
    step_cases; try done.
    all: apply db_unique_insert; [done|]; unfold unique_users; simpl.
    all: apply unique_filter; by eapply Hd.
Qed.

Lemma db_unique_start capacity password : db_unique (db (start capacity password)).
Proof.
  intros k m. simpl. rewrite lookup_singleton. case_decide; [|done].
  intros [= <-]. unfold unique_users. simpl. apply NoDup_singleton.
Qed.

Lemma requests_keep_users_unique_witness :
  db_unique (db (serve e0 (PostJoin "u2" "Bob" "ABC12345" (JObj []))
                   (start 50 None))).
Proof.
  apply (requests_keep_users_unique e0
           (PostJoin "u2" "Bob" "ABC12345" (JObj [])) (start 50 None)).
  apply db_unique_start.
Defined.

Lemma db_capacity_insert d k m :
  db_within_capacity d → within_capacity m → db_within_capacity (<[k := m]> d).
Proof.
  intros Hd Hm k' m'. rewrite lookup_insert. case_decide; [|by apply Hd].
  by intros [= <-].
Qed.

Lemma db_whole_insert d k m :
  db_whole_capacity d → whole_capacity m → db_whole_capacity (<[k := m]> d).
Proof.
  intros Hd Hm k' m'. rewrite lookup_insert. case_decide; [|by apply Hd].
  by intros [= <-].
Qed.

Lemma whole_set_participants m ps :
  whole_capacity m → whole_capacity (Meeting.set_participants m ps).
Proof. done. Qed.

Lemma assign_first_length uid muted videoOn ps :
  length (Meeting.assign_first uid muted videoOn ps) = length ps.
Proof.
  induction ps as [|p ps IH]; [done|]. cbn [Meeting.assign_first].
  destruct (bool_decide (Meeting.userId p = uid)); [done|].
  simpl. by rewrite IH.
Qed.

(** X27. Apart from the socket [join-meeting], nothing takes a participant
    list beyond its meeting's capacity, as long as the capacities stored are
    whole numbers: if every list is within [maxParticipants] before a REST
    join or leave, a status update or any other socket event, it is so
    afterwards, and the capacities are still whole. *)
Theorem requests_but_socket_join_keep_capacity e rq st :
  (∀ sid sock data, rq ≠ Event sid sock (JoinMeeting data)) →
  db_whole_capacity (db st) →
  db_within_capacity (db st) →
  db_within_capacity (db (serve e rq st)) ∧
  db_whole_capacity (db (serve e rq st)).
Proof.
  intros Hrq Hw Hd.
  destruct rq as [sid sock i|uid nm meetingId body|uid nm meetingId]; simpl.
  - destruct i; simpl;
      rewrite ?webrtc_offer_state, ?webrtc_answer_state,
        ?webrtc_ice_candidate_state, ?send_message_state,
        ?start_screen_share_state, ?stop_screen_share_state,
        ?mute_participant_state, ?leave_meeting_db, ?disconnect_db;
      try done.
    + by destruct (Hrq sid sock data).
    + unfold update_participant_status, Meeting.updateParticipant. unfold_M.
      step_cases; try done.
      split; [apply db_capacity_insert|apply db_whole_insert]; try done.
      * rewrite loaded_set_participants. unfold within_capacity. simpl.
        rewrite length_fmap, assign_first_length. by eapply Hd.
      * rewrite loaded_set_participants.
        apply whole_set_participants. by eapply Hw.
  - unfold post_join, Meeting.addParticipant. unfold_M.
    step_cases; try done.
    all: split; [apply db_capacity_insert|apply db_whole_insert]; try done.
    all: try (apply whole_set_participants; by eapply Hw).
    all: match goal with Hm : db _ !! _ = Some ?m |- _ =>
           pose proof (Hw _ _ Hm) as Hwhole end.
    all: unfold within_capacity, whole_capacity in *; simpl.
    all: destruct (Meeting.maxParticipants _) as [q| |]; try done.
    all: rewrite length_app; simpl; by apply not_reached_room_for_one.
  - unfold post_leave, Meeting.removeParticipant. unfold_M.
    step_cases; try done.
    all: split; [apply db_capacity_insert|apply db_whole_insert]; try done.
    all: try (apply whole_set_participants; by eapply Hw).
    all: match goal with Hm : db _ !! _ = Some ?m |- _ =>
           pose proof (Hd _ _ Hm) as Hcap; unfold within_capacity in Hcap;
           pose proof (List.filter_length_le
                         (λ p, bool_decide (Meeting.userId p ≠ uid))
                         (Meeting.participants m)) as Hshorter end.
    all: unfold within_capacity; simpl.
    all: destruct (Meeting.maxParticipants _) as [q| |]; try done.
    all: eapply Qle_trans; [|exact Hcap]; rewrite <- Zle_Qle; lia.
Qed.

Lemma db_within_capacity_start :
  db_within_capacity (db (start 2 None)).
Proof.
  intros k m. simpl. rewrite lookup_singleton. case_decide; [|done].
  intros [= <-]. unfold within_capacity. simpl. by vm_compute.
Qed.

Lemma db_whole_capacity_start capacity password :
  db_whole_capacity (db (start capacity password)).
Proof.
  intros k m. simpl. rewrite lookup_singleton. case_decide; [|done].
  intros [= <-]. unfold whole_capacity. simpl. by exists capacity.
Qed.

Lemma requests_but_socket_join_keep_capacity_witness :
  db_within_capacity
    (db (serve e0 (PostJoin "u2" "Bob" "ABC12345" (JObj [])) (start 2 None))) ∧
  db_whole_capacity
    (db (serve e0 (PostJoin "u2" "Bob" "ABC12345" (JObj [])) (start 2 None))).
Proof.
  apply (requests_but_socket_join_keep_capacity e0
           (PostJoin "u2" "Bob" "ABC12345" (JObj [])) (start 2 None)).
  - intros sid sock data. discriminate.
  - apply db_whole_capacity_start.
  - apply db_within_capacity_start.
Defined.

(** ** The REST routes *)

(** X28. POST /join/:meetingId admits a newcomer: for an active meeting
    whose list has not reached [maxParticipants], a matching password where
    one is required, a caller without an entry and a persistence layer that
    answers, the caller's entry is appended with the schema defaults (join
    time, not host, not muted, video on); the route answers 200 with the
    object literal [{ userId, name, isHost: false }] that [addParticipant]
    returned, not with the stored entry, and one [participant-joined] event
    with that literal and the new list goes to the room named by the route
    parameter as it is spelled. Sockets and rooms are not touched. *)
Theorem post_join_admits_newcomer e uid nm meetingId body st meeting password :
  destructure body "password" = inr password →
  findOne_rejects e = false →
  save_rejects e = false →
  db st !! toUpperCase meetingId = Some meeting →
  Meeting.isActive meeting = true →
  (Meeting.requirePassword meeting = false ∨
   strict_equal (nullable (Meeting.meetingPassword meeting)) password = true) →
  Meeting.reached (length (Meeting.participants meeting))
                  (Meeting.maxParticipants meeting) = false →
  Meeting.find uid (Meeting.participants meeting) = None →
  let participant := Meeting.Pushed uid nm false in
  let participants' :=
    (Meeting.participants meeting ++
     [{| Meeting.userId := uid; Meeting.name := nm;
         Meeting.joinedAt := new_Date e; Meeting.isMuted := JBool false;
         Meeting.isVideoOn := JBool true; Meeting.isHost := false |}])%list in
  run (post_join e uid nm meetingId body) st =
    Ok {| status := 200; success := true;
          res_message := "Successfully joined meeting";
          res_participant := Some participant |}
       {| db := <[Meeting.meetingId meeting :=
                    Meeting.set_participants meeting participants']> (db st);
          sockets := sockets st; rooms := rooms st |}
       [{| recipients := room st meetingId;
           payload := ParticipantJoined participant
                        (Meeting.meetingId meeting) participants' |}].
Proof.
  intros Hbody Hfind Hsave Hdb Hactive Hpw Hroom Hnew. simpl.
  unfold post_join, Meeting.addParticipant. unfold_M.
  rewrite Hbody. simpl. rewrite Hfind, Hdb, Hactive.
  assert (Meeting.requirePassword meeting &&
          negb (strict_equal (nullable (Meeting.meetingPassword meeting))
                  password) = false) as ->.
  { destruct Hpw as [->| ->]; [done|]. by rewrite andb_false_r. }
  rewrite Hroom, Hnew. simpl. by rewrite Hsave.
Qed.

Lemma post_join_admits_newcomer_witness :
  let participant := Meeting.Pushed "u2" "Bob" false in
  let participants' :=
    (Meeting.participants (abc 2 None) ++
     [{| Meeting.userId := "u2"; Meeting.name := "Bob";
         Meeting.joinedAt := new_Date e0; Meeting.isMuted := JBool false;
         Meeting.isVideoOn := JBool true; Meeting.isHost := false |}])%list in
  run (post_join e0 "u2" "Bob" "ABC12345" (JObj [])) (start 2 None) =
    Ok {| status := 200; success := true;
          res_message := "Successfully joined meeting";
          res_participant := Some participant |}
       {| db := <[Meeting.meetingId (abc 2 None) :=
                    Meeting.set_participants (abc 2 None) participants']>
                  (db (start 2 None));
          sockets := sockets (start 2 None); rooms := rooms (start 2 None) |}
       [{| recipients := room (start 2 None) "ABC12345";
           payload := ParticipantJoined participant
                        (Meeting.meetingId (abc 2 None)) participants' |}].
Proof.
  apply (post_join_admits_newcomer e0 "u2" "Bob" "ABC12345" (JObj [])
           (start 2 None) (abc 2 None) JUndefined); try reflexivity.
  left. reflexivity.
Defined.

(** X29. POST /:meetingId/leave removes the caller's persisted entry and
    nothing else: it answers 200 whether or not the caller had an entry,
    sends one [participant-left] event with the remaining list to the room,
    and leaves every socket where it is, the caller's own included, which
    stays a member of the room with the meeting as its current one. *)
Theorem post_leave_effect e uid nm meetingId st meeting :
  findOne_rejects e = false →
  save_rejects e = false →
  db st !! toUpperCase meetingId = Some meeting →
  Meeting.isActive meeting = true →
  let meeting' := Meeting.removeParticipant meeting uid in
  run (post_leave e uid nm meetingId) st =
    Ok {| status := 200; success := true;
          res_message := "Successfully left meeting";
          res_participant := None |}
       {| db := <[Meeting.meetingId meeting := meeting']> (db st);
          sockets := sockets st; rooms := rooms st |}
       [{| recipients := room st meetingId;
           payload := ParticipantLeft uid nm (Meeting.meetingId meeting)
                        (Meeting.participants meeting') |}] ∧
  Meeting.find uid (Meeting.participants meeting') = None.
Proof.
  intros Hfind Hsave Hdb Hactive. simpl. split.
  - unfold post_leave. unfold_M. rewrite Hfind, Hdb, Hactive. simpl.
    by rewrite Hsave.
  - apply find_filter_gone.
Qed.

Lemma post_leave_effect_witness :
  let meeting := Meeting.set_participants (abc 50 None) [ann; bob] in
  let meeting' := Meeting.removeParticipant meeting "u2" in
  run (post_leave e0 "u2" "Bob" "ABC12345") with_bob =
    Ok {| status := 200; success := true;
          res_message := "Successfully left meeting";
          res_participant := None |}
       {| db := <[Meeting.meetingId meeting := meeting']> (db with_bob);
          sockets := sockets with_bob; rooms := rooms with_bob |}
       [{| recipients := room with_bob "ABC12345";
           payload := ParticipantLeft "u2" "Bob" (Meeting.meetingId meeting)
                        (Meeting.participants meeting') |}] ∧
  Meeting.find "u2" (Meeting.participants meeting') = None.
Proof.
  apply (post_leave_effect e0 "u2" "Bob" "ABC12345" with_bob
           (Meeting.set_participants (abc 50 None) [ann; bob]));
    reflexivity.
Defined.

(** X30. DELETE /:meetingId is for the host alone. Anyone else is answered
    403 and nothing happens: no event, no change. For the host the room is
    told with one [meeting-deleted] event and the meeting, active or not, is
    removed from the collection; the sockets and the rooms stay as they are.
    If the removal itself is rejected the answer is 500 and the meeting
    stays, the room having been told already. *)
Theorem delete_meeting_is_for_the_host e delete_rejects uid meetingId st meeting :
  findOne_rejects e = false →
  db st !! toUpperCase meetingId = Some meeting →
  let result := delete_meeting e delete_rejects uid meetingId st in
  let response := result.1.1 in
  let st' := result.1.2 in
  let out := result.2 in
  (Meeting.hostId meeting ≠ uid →
   status response = 403%nat ∧ st' = st ∧ out = []) ∧
  (Meeting.hostId meeting = uid →
   out = [{| route_recipients := room st meetingId;
             route_payload :=
               MeetingDeleted "Meeting has been deleted by the host"
                 (Meeting.meetingId meeting) |}] ∧
   sockets st' = sockets st ∧ rooms st' = rooms st ∧
   if delete_rejects
   then status response = 500%nat ∧ st' = st
   else status response = 200%nat ∧
        db st' = delete (toUpperCase meetingId) (db st) ∧
        db st' !! toUpperCase meetingId = None).
Proof.
  intros Hfind Hdb. simpl. unfold delete_meeting. rewrite Hfind, Hdb. simpl.
  split.
  - intros Hne. by rewrite bool_decide_eq_false_2.
  - intros Heq. rewrite bool_decide_eq_true_2 by done.
    destruct delete_rejects; simpl; split_and!; try done.
    apply lookup_delete_eq.
Qed.

Lemma delete_meeting_is_for_the_host_witness :
  let result := delete_meeting e0 false "u2" "ABC12345" with_bob in
  let response := result.1.1 in
  let st' := result.1.2 in
  let out := result.2 in
  let meeting := Meeting.set_participants (abc 50 None) [ann; bob] in
  (Meeting.hostId meeting ≠ "u2" →
   status response = 403%nat ∧ st' = with_bob ∧ out = []) ∧
  (Meeting.hostId meeting = "u2" →
   out = [{| route_recipients := room with_bob "ABC12345";
             route_payload :=
               MeetingDeleted "Meeting has been deleted by the host"
                 (Meeting.meetingId meeting) |}] ∧
   sockets st' = sockets with_bob ∧ rooms st' = rooms with_bob ∧
   if false
   then status response = 500%nat ∧ st' = with_bob
   else status response = 200%nat ∧
        db st' = delete (toUpperCase "ABC12345") (db with_bob) ∧
        db st' !! toUpperCase "ABC12345" = None).
Proof.
  apply (delete_meeting_is_for_the_host e0 false "u2" "ABC12345" with_bob
           (Meeting.set_participants (abc 50 None) [ann; bob])).
  - reflexivity.
  - vm_compute. reflexivity.
Defined.
